(** * Password-hardened encryption (phe-go): a shallow embedding

    The server engine (server.go), the client engine (the second half of
    utils.go) and the scalar sampler [RandomZ] (utils.go, first half) are
    embedded as Rocq functions.  Randomness is made explicit: every call of
    [rand.Read] or [randomZ] becomes an argument of the embedded function.

    The curve arithmetic, the hash primitives and the codecs of the
    repository are not part of the sources; they are taken as the interface
    [Curve] / [Primitives] below. *)

From Stdlib Require Import ZArith List Bool Lia String.
From Stdlib Require Import Zdivisibility Zcong Morphisms Setoid.
From Stdlib.Strings Require Import Byte.
Import ListNotations.
Local Open Scope Z_scope.

(** ** Byte strings and [math/big] *)

Definition bytes := list byte.

Module BigInt.

Definition byteZ (b : byte) : Z := Z.of_N (Byte.to_N b).

Definition Zbyte (z : Z) : byte :=
  match Byte.of_N (Z.to_N (z mod 256)) with
  | Some b => b
  | None => x00
  end.

(** [new(big.Int).SetBytes(buf)]: [buf] read as a big-endian unsigned integer. *)
Definition SetBytes (buf : bytes) : Z :=
  fold_left (fun acc b => acc * 256 + byteZ b) buf 0.

Fixpoint bytes_loop (fuel : nat) (z : Z) (acc : bytes) : bytes :=
  match fuel with
  | O => acc
  | S f => if z <=? 0 then acc else bytes_loop f (z / 256) (Zbyte z :: acc)
  end.

(** [x.Bytes()]: the minimal big-endian encoding of [|x|] (empty for 0). *)
Definition Bytes (z : Z) : bytes :=
  bytes_loop (S (Z.to_nat (Z.log2 (Z.abs z)))) (Z.abs z) [].

(** [x.Cmp(y)] *)
Definition Cmp (a b : Z) : Z :=
  match a ?= b with
  | Lt => -1
  | Eq => 0
  | Gt => 1
  end.

End BigInt.

(** ** Go errors, results and panics *)

Inductive error : Type :=
| errorsNew (msg : string)
| errorsWrap (cause : error) (msg : string).

Inductive result (A : Type) : Type :=
| Ok (a : A)
| Err (e : error).
Arguments Ok {A} a.
Arguments Err {A} e.

(** What a call does: it returns, or it panics. *)
Inductive outcome (A : Type) : Type :=
| Returns (a : A)
| Panics.
Arguments Returns {A} a.
Arguments Panics {A}.

(** ** [RandomZ] (utils.go, lines 18-33, and the unnamed older file)

    [curve.Params().N] of [elliptic.P256()]. *)
Definition P256_N : Z :=
  0xffffffff00000000ffffffffffffffffbce6faada7179e84f3b9cac2fc632551.

Module Utils.

(** The loop [for z == nil { ... }]: [reader i] is what the [i]-th
    [io.ReadFull(rand.Reader, priv)] leaves in [priv].  The result is [None]
    when [fuel] iterations were not enough. *)
Fixpoint RandomZ_loop (fuel : nat) (reader : nat -> bytes) (i : nat)
  (z : option bytes) : option (outcome bytes) :=
  match z with
  | Some v => Some (Returns v)
  | None =>
      match fuel with
      | O => None
      | S f =>
          let priv := reader i in
          if BigInt.Cmp (BigInt.SetBytes priv) P256_N >=? 0
          then Some Panics
          else RandomZ_loop f reader (S i) (Some priv)
      end
  end.

Definition RandomZ (fuel : nat) (reader : nat -> bytes) : option (outcome bytes) :=
  RandomZ_loop fuel reader O None.

End Utils.

Module Unnamed0.

(** The older variant returns a [*big.Int]. *)
Fixpoint RandomZ_loop (fuel : nat) (reader : nat -> bytes) (i : nat)
  (z : option Z) : option (outcome Z) :=
  match z with
  | Some v => Some (Returns v)
  | None =>
      match fuel with
      | O => None
      | S f =>
          let priv := reader i in
          if BigInt.Cmp (BigInt.SetBytes priv) P256_N >=? 0
          then Some Panics
          else RandomZ_loop f reader (S i) (Some (BigInt.SetBytes priv))
      end
  end.

Definition RandomZ (fuel : nat) (reader : nat -> bytes) : option (outcome Z) :=
  RandomZ_loop fuel reader O None.

End Unnamed0.

(** ** The curve interface (package-level [curve], [curveG], type [Point])

    Modelled from the spec: the methods of [Point] ([Add], [Neg],
    [ScalarMultInt], [Equal], [Marshal]) and [PointUnmarshal] are repository
    code outside the sources.  Sections 3 and 4.2 of the specification
    describe them as the group operations of NIST P-256, a group of prime
    order [n] with base point [G], with a fixed 65-byte wire form in which
    the point at infinity is not a legal value. *)
Class Curve : Type := {
  Point : Type;
  orderN : Z;
  Inf : Point;
  curveG : Point;
  Add : Point -> Point -> Point;
  Neg : Point -> Point;
  ScalarMultInt : Point -> Z -> Point;
  Equal : Point -> Point -> bool;
  Marshal : Point -> bytes;
  PointUnmarshal : bytes -> result Point;
  orderN_prime : Z.prime orderN;
  Add_comm : forall p q, Add p q = Add q p;
  Add_assoc : forall p q r, Add p (Add q r) = Add (Add p q) r;
  Add_Inf_l : forall p, Add Inf p = p;
  Add_Neg_r : forall p, Add p (Neg p) = Inf;
  ScalarMultInt_1 : forall p, ScalarMultInt p 1 = p;
  ScalarMultInt_plus : forall p a b,
    ScalarMultInt p (a + b) = Add (ScalarMultInt p a) (ScalarMultInt p b);
  ScalarMultInt_mult : forall p a b,
    ScalarMultInt (ScalarMultInt p a) b = ScalarMultInt p (a * b);
  ScalarMultInt_Add : forall p q a,
    ScalarMultInt (Add p q) a = Add (ScalarMultInt p a) (ScalarMultInt q a);
  ScalarMultInt_order : forall p, ScalarMultInt p orderN = Inf;
  ScalarMultInt_Inf_inv : forall p k,
    ScalarMultInt p k = Inf -> p = Inf \/ k mod orderN = 0;
  Equal_true_iff : forall p q, Equal p q = true <-> p = q;
  curveG_valid : curveG <> Inf;
  Marshal_length : forall p, List.length (Marshal p) = 65%nat;
  PointUnmarshal_Marshal : forall p, p <> Inf -> PointUnmarshal (Marshal p) = Ok p;
  PointUnmarshal_Ok : forall b p, PointUnmarshal b = Ok p -> Marshal p = b /\ p <> Inf
}.

(** [p.ScalarMult(b)], [new(Point).ScalarBaseMult(b)] and
    [new(Point).ScalarBaseMultInt(k)]: the byte string is a big-endian scalar,
    the base point is [curveG]. *)
Definition ScalarMult `{Curve} (p : Point) (b : bytes) : Point :=
  ScalarMultInt p (BigInt.SetBytes b).

Definition ScalarBaseMult `{Curve} (b : bytes) : Point :=
  ScalarMult curveG b.

Definition ScalarBaseMultInt `{Curve} (k : Z) : Point :=
  ScalarMultInt curveG k.

(** ** The scalar field [gf]

    Modelled from the spec: section 4.1, arithmetic modulo the group order
    with canonical results; [Inv] is the extended-Euclid inverse and fails
    on a scalar that is zero modulo the order. *)
Module gf.

Definition Add `{Curve} (a b : Z) : Z := (a + b) mod orderN.
Definition Mul `{Curve} (a b : Z) : Z := (a * b) mod orderN.
Definition Neg `{Curve} (a : Z) : Z := (- a) mod orderN.
Definition Inv `{Curve} (a : Z) : option Z :=
  if a mod orderN =? 0 then None else Some (Z.invmod a orderN).
Definition AddBytes `{Curve} (a : bytes) (b : Z) : Z := Add (BigInt.SetBytes a) b.
Definition MulBytes `{Curve} (a : bytes) (b : Z) : Z := Mul (BigInt.SetBytes a) b.

End gf.

(** ** Message types *)

Record keypair : Type := { PublicKey : bytes; PrivateKey : bytes }.

Module ProofOfSuccess.
Record t : Type := { Term1 : bytes; Term2 : bytes; Term3 : bytes; BlindX : bytes }.
End ProofOfSuccess.

Module ProofOfFail.
Record t : Type := {
  Term1 : bytes; Term2 : bytes; Term3 : bytes; Term4 : bytes;
  BlindA : bytes; BlindB : bytes }.
End ProofOfFail.

Module EnrollmentResponse.
Record t : Type := {
  NS : bytes; C0 : bytes; C1 : bytes; Proof : option ProofOfSuccess.t }.
End EnrollmentResponse.

Module EnrollmentRecord.
Record t : Type := { NS : bytes; NC : bytes; T0 : bytes; T1 : bytes }.
End EnrollmentRecord.

Module VerifyPasswordRequest.
Record t : Type := { NS : bytes; C0 : bytes }.
End VerifyPasswordRequest.

Module VerifyPasswordResponse.
Record t : Type := {
  Res : bool; C1 : bytes;
  ProofSuccess : option ProofOfSuccess.t;
  ProofFail : option ProofOfFail.t }.
End VerifyPasswordResponse.

Module UpdateToken.
Record t : Type := { A : bytes; B : bytes }.
End UpdateToken.

(** ** Hash primitives, key derivation and the keypair codec

    Modelled from the spec: [hashToPoint], [hashZ], the domain tags and
    [marshalKeypair] / [unmarshalKeypair] are repository code outside the
    sources (sections 4.3, 6.2 and 6.5); [hkdf] is the x/crypto package.
    [hashToPoint] is the SWU map and so never yields the point at infinity;
    the keypair codec is a deterministic encoding that decodes to what was
    encoded. *)
Class Primitives `{Curve} : Type := {
  dhc0 : bytes; dhc1 : bytes; dhs0 : bytes; dhs1 : bytes; dm : bytes;
  proofOk : bytes; proofError : bytes;
  hashToPoint : bytes -> list bytes -> Point;
  hashZ : bytes -> list bytes -> Z;
  hkdfSha512_256 : bytes -> bytes -> bytes -> nat -> bytes;
  marshalKeypair : bytes -> bytes -> result bytes;
  unmarshalKeypair : bytes -> result keypair;
  hashToPoint_valid : forall d l, hashToPoint d l <> Inf;
  unmarshalKeypair_marshalKeypair : forall pub priv kp,
    marshalKeypair pub priv = Ok kp ->
    unmarshalKeypair kp = Ok {| PublicKey := pub; PrivateKey := priv |}
}.

(** [kdf.Read(buf)] on a fresh reader of [hkdf.New(sha512.New512_256, secret,
    salt, info)] with [len(buf) = need]: x/crypto's reader fails only when
    more than 255 hash blocks (of 32 bytes) are requested, and then leaves
    [buf] as it was (zeroed by [make]). *)
Definition hkdfRead `{Primitives} (secret salt info : bytes) (need : nat)
  : bytes * option error :=
  if (255 * 32 <? need)%nat
  then (repeat x00 need, Some (errorsNew "hkdf: entropy limit reached"))
  else (hkdfSha512_256 secret salt info need, None).

(** ** Parsers of the message types

    Modelled from the spec: the [parse] methods are repository code outside
    the sources.  By section 6.4 every point field decodes with
    [PointUnmarshal] and every scalar field is a big-endian integer; a nil
    message does not parse. *)
Module Parse.

Definition ProofOfSuccess `{Curve} (p : option ProofOfSuccess.t)
  : result (Point * Point * Point * Z) :=
  match p with
  | None => Err (errorsNew "invalid proof")
  | Some p =>
      match PointUnmarshal (ProofOfSuccess.Term1 p) with
      | Err e => Err e
      | Ok term1 =>
      match PointUnmarshal (ProofOfSuccess.Term2 p) with
      | Err e => Err e
      | Ok term2 =>
      match PointUnmarshal (ProofOfSuccess.Term3 p) with
      | Err e => Err e
      | Ok term3 =>
          Ok (term1, term2, term3, BigInt.SetBytes (ProofOfSuccess.BlindX p))
      end end end
  end.

Definition ProofOfFail `{Curve} (p : option ProofOfFail.t)
  : result (Point * Point * Point * Point * Z * Z) :=
  match p with
  | None => Err (errorsNew "invalid proof")
  | Some p =>
      match PointUnmarshal (ProofOfFail.Term1 p) with
      | Err e => Err e
      | Ok term1 =>
      match PointUnmarshal (ProofOfFail.Term2 p) with
      | Err e => Err e
      | Ok term2 =>
      match PointUnmarshal (ProofOfFail.Term3 p) with
      | Err e => Err e
      | Ok term3 =>
      match PointUnmarshal (ProofOfFail.Term4 p) with
      | Err e => Err e
      | Ok term4 =>
          Ok (term1, term2, term3, term4,
              BigInt.SetBytes (ProofOfFail.BlindA p),
              BigInt.SetBytes (ProofOfFail.BlindB p))
      end end end end
  end.

Definition EnrollmentRecord `{Curve} (rec : option EnrollmentRecord.t)
  : result (Point * Point) :=
  match rec with
  | None => Err (errorsNew "invalid record")
  | Some rec =>
      match PointUnmarshal (EnrollmentRecord.T0 rec) with
      | Err e => Err e
      | Ok t0 =>
      match PointUnmarshal (EnrollmentRecord.T1 rec) with
      | Err e => Err e
      | Ok t1 => Ok (t0, t1)
      end end
  end.

Definition UpdateToken (token : option UpdateToken.t) : result (Z * Z) :=
  match token with
  | None => Err (errorsNew "invalid token")
  | Some t => Ok (BigInt.SetBytes (UpdateToken.A t), BigInt.SetBytes (UpdateToken.B t))
  end.

End Parse.

(** ** The server engine (server.go)

    Each [randomZ()] of the source is an argument (the scalar it returned);
    [rand.Read] is an argument holding the bytes it delivered or its error. *)
Module Server.
Section Engine.
Context `{Prim : Primitives}.

Definition GenerateServerKeypair (rnd : Z) : result bytes :=
  let privateKey := BigInt.Bytes rnd in
  let publicKey := ScalarBaseMult privateKey in
  marshalKeypair (Marshal publicKey) privateKey.

Definition eval (kp : keypair) (ns : bytes) : Point * Point * Point * Point :=
  let hs0 := hashToPoint dhs0 [ns] in
  let hs1 := hashToPoint dhs1 [ns] in
  let c0 := ScalarMult hs0 (PrivateKey kp) in
  let c1 := ScalarMult hs1 (PrivateKey kp) in
  (hs0, hs1, c0, c1).

Definition proveSuccess (kp : keypair) (hs0 hs1 c0 c1 : Point) (rnd : Z)
  : ProofOfSuccess.t :=
  let blindX := rnd in
  let term1 := ScalarMult hs0 (BigInt.Bytes blindX) in
  let term2 := ScalarMult hs1 (BigInt.Bytes blindX) in
  let term3 := ScalarBaseMult (BigInt.Bytes blindX) in
  let challenge :=
    hashZ proofOk [PublicKey kp; Marshal curveG; Marshal c0; Marshal c1;
                   Marshal term1; Marshal term2; Marshal term3] in
  let res := gf.Add blindX (gf.MulBytes (PrivateKey kp) challenge) in
  {| ProofOfSuccess.Term1 := Marshal term1;
     ProofOfSuccess.Term2 := Marshal term2;
     ProofOfSuccess.Term3 := Marshal term3;
     ProofOfSuccess.BlindX := BigInt.Bytes res |}.

Definition GetEnrollment (serverKeypair : bytes) (rnd_ns : result bytes) (rnd : Z)
  : option EnrollmentResponse.t * option error :=
  match unmarshalKeypair serverKeypair with
  | Err err => (None, Some err)
  | Ok kp =>
      match rnd_ns with
      | Err err => (None, Some err)
      | Ok ns =>
          let '(hs0, hs1, c0, c1) := eval kp ns in
          let proof := proveSuccess kp hs0 hs1 c0 c1 rnd in
          (Some {| EnrollmentResponse.NS := ns;
                   EnrollmentResponse.C0 := Marshal c0;
                   EnrollmentResponse.C1 := Marshal c1;
                   EnrollmentResponse.Proof := Some proof |}, None)
      end
  end.

Definition GetPublicKey (serverKeypair : bytes) : option bytes * option error :=
  match unmarshalKeypair serverKeypair with
  | Err err => (None, Some err)
  | Ok key => (Some (PublicKey key), None)
  end.

(** [proveFailure] has named results: on the decoding error it returns the
    [c1] computed so far, no proof, and the error. *)
Definition proveFailure (kp : keypair) (c0 hs0 : Point) (rnd_r rnd_a rnd_b : Z)
  : Point * option ProofOfFail.t * option error :=
  let r := rnd_r in
  let minusR := gf.Neg r in
  let minusRX := gf.MulBytes (PrivateKey kp) minusR in
  let c1 := Add (ScalarMult c0 (BigInt.Bytes r))
                (ScalarMult hs0 (BigInt.Bytes minusRX)) in
  let a := r in
  let b := minusRX in
  let blindA := BigInt.Bytes rnd_a in
  let blindB := BigInt.Bytes rnd_b in
  match PointUnmarshal (PublicKey kp) with
  | Err err => (c1, None, Some err)
  | Ok publicKey =>
      let term1 := ScalarMult c0 blindA in
      let term2 := ScalarMult hs0 blindB in
      let term3 := ScalarMult publicKey blindA in
      let term4 := ScalarBaseMult blindB in
      let challenge :=
        hashZ proofError [PublicKey kp; Marshal curveG; Marshal c0; Marshal c1;
                          Marshal term1; Marshal term2; Marshal term3;
                          Marshal term4] in
      (c1,
       Some {| ProofOfFail.Term1 := Marshal term1;
               ProofOfFail.Term2 := Marshal term2;
               ProofOfFail.Term3 := Marshal term3;
               ProofOfFail.Term4 := Marshal term4;
               ProofOfFail.BlindA :=
                 BigInt.Bytes (gf.AddBytes blindA (gf.Mul challenge a));
               ProofOfFail.BlindB :=
                 BigInt.Bytes (gf.AddBytes blindB (gf.Mul challenge b)) |},
       None)
  end.

(** [rnd_x] is the draw of [proveSuccess]; [rnd_r], [rnd_a], [rnd_b] are the
    three draws of [proveFailure]. *)
Definition VerifyPassword (serverKeypair : bytes)
  (req : option VerifyPasswordRequest.t) (rnd_x rnd_r rnd_a rnd_b : Z)
  : option VerifyPasswordResponse.t * option error :=
  match unmarshalKeypair serverKeypair with
  | Err err => (None, Some err)
  | Ok kp =>
      match req with
      | None => (None, Some (errorsNew "Invalid password verify request"))
      | Some req =>
          if ((32 <? List.length (VerifyPasswordRequest.NS req))%nat
              || (List.length (VerifyPasswordRequest.NS req) =? 0)%nat)%bool
          then (None, Some (errorsNew "Invalid password verify request"))
          else
            let ns := VerifyPasswordRequest.NS req in
            match PointUnmarshal (VerifyPasswordRequest.C0 req) with
            | Err err => (None, Some err)
            | Ok c0 =>
                let hs0 := hashToPoint dhs0 [ns] in
                let hs1 := hashToPoint dhs1 [ns] in
                if Equal (ScalarMult hs0 (PrivateKey kp)) c0
                then
                  let c1 := ScalarMult hs1 (PrivateKey kp) in
                  (Some {| VerifyPasswordResponse.Res := true;
                           VerifyPasswordResponse.C1 := Marshal c1;
                           VerifyPasswordResponse.ProofSuccess :=
                             Some (proveSuccess kp hs0 hs1 c0 c1 rnd_x);
                           VerifyPasswordResponse.ProofFail := None |}, None)
                else
                  match proveFailure kp c0 hs0 rnd_r rnd_a rnd_b with
                  | (_, _, Some err) => (None, Some err)
                  | (c1, proof, None) =>
                      (Some {| VerifyPasswordResponse.Res := false;
                               VerifyPasswordResponse.C1 := Marshal c1;
                               VerifyPasswordResponse.ProofSuccess := None;
                               VerifyPasswordResponse.ProofFail := proof |}, None)
                  end
            end
      end
  end.

(** [Rotate] has named results [(token, newServerKeypair, err)]. *)
Definition Rotate (serverKeypair : bytes) (rnd_a rnd_b : Z)
  : option UpdateToken.t * option bytes * option error :=
  match unmarshalKeypair serverKeypair with
  | Err err => (None, None, Some err)
  | Ok kp =>
      let a := rnd_a in
      let b := rnd_b in
      let newPrivate := BigInt.Bytes (gf.Add (gf.MulBytes (PrivateKey kp) a) b) in
      let newPublic := ScalarBaseMult newPrivate in
      match marshalKeypair (Marshal newPublic) newPrivate with
      | Err err => (None, None, Some err)
      | Ok newServerKeypair =>
          (Some {| UpdateToken.A := BigInt.Bytes a; UpdateToken.B := BigInt.Bytes b |},
           Some newServerKeypair, None)
      end
  end.

End Engine.
End Server.

(** ** The client engine (utils.go, from line 99) *)
Module Client.
Section Engine.
Context `{Prim : Primitives}.

Record t : Type := {
  clientPrivateKey : Z;
  clientPrivateKeyBytes : bytes;
  serverPublicKey : Point;
  serverPublicKeyBytes : bytes }.

Definition NewClient (privateKey serverPublicKey : bytes)
  : option t * option error :=
  if (List.length privateKey =? 0)%nat
  then (None, Some (errorsNew "invalid private key"))
  else
    match PointUnmarshal serverPublicKey with
    | Err err => (None, Some (errorsWrap err "invalid public key"))
    | Ok pub =>
        (Some {| clientPrivateKey := BigInt.SetBytes privateKey;
                 serverPublicKey := pub;
                 clientPrivateKeyBytes := privateKey;
                 serverPublicKeyBytes := serverPublicKey |}, None)
    end.

Definition validateProofOfSuccess (c : t) (proof : option ProofOfSuccess.t)
  (nonce : bytes) (c0 c1 : Point) (c0b c1b : bytes) : bool :=
  match Parse.ProofOfSuccess proof, proof with
  | Ok (term1, term2, term3, blindX), Some pr =>
      let hs0 := hashToPoint dhs0 [nonce] in
      let hs1 := hashToPoint dhs1 [nonce] in
      let challenge :=
        hashZ proofOk [serverPublicKeyBytes c; Marshal curveG; c0b; c1b;
                       ProofOfSuccess.Term1 pr; ProofOfSuccess.Term2 pr;
                       ProofOfSuccess.Term3 pr] in
      let t1 := Add term1 (ScalarMultInt c0 challenge) in
      let t2 := ScalarMultInt hs0 blindX in
      if negb (Equal t1 t2) then false
      else
        let t1 := Add term2 (ScalarMultInt c1 challenge) in
        let t2 := ScalarMultInt hs1 blindX in
        if negb (Equal t1 t2) then false
        else
          let t1 := Add term3 (ScalarMultInt (serverPublicKey c) challenge) in
          let t2 := ScalarBaseMultInt blindX in
          if negb (Equal t1 t2) then false
          else true
  | _, _ => false
  end.

(** Named results [(rec, key, err)]; the two [rand.Read] calls panic on an
    error of the reader. *)
Definition EnrollAccount (c : t) (password : bytes)
  (resp : option EnrollmentResponse.t) (rnd_nc rnd_mBuf : result bytes)
  : outcome (option EnrollmentRecord.t * option bytes * option error) :=
  match resp with
  | None => Returns (None, None, Some (errorsNew "invalid proof"))
  | Some resp =>
      match PointUnmarshal (EnrollmentResponse.C0 resp) with
      | Err err => Returns (None, None, Some err)
      | Ok c0 =>
      match PointUnmarshal (EnrollmentResponse.C1 resp) with
      | Err err => Returns (None, None, Some err)
      | Ok c1 =>
          let proofValid :=
            validateProofOfSuccess c (EnrollmentResponse.Proof resp)
              (EnrollmentResponse.NS resp) c0 c1
              (EnrollmentResponse.C0 resp) (EnrollmentResponse.C1 resp) in
          if negb proofValid
          then Returns (None, None, Some (errorsNew "invalid proof"))
          else
            match rnd_nc with
            | Err _ => Panics
            | Ok nc =>
                let hc0 := hashToPoint dhc0 [nc; password] in
                let hc1 := hashToPoint dhc1 [nc; password] in
                match rnd_mBuf with
                | Err _ => Panics
                | Ok mBuf =>
                    let m := hashToPoint dm [mBuf] in
                    let '(key, err) :=
                      hkdfRead (Marshal m) [] (list_byte_of_string "Secret") 32 in
                    let t0 := Add c0 (ScalarMultInt hc0 (clientPrivateKey c)) in
                    let t1 :=
                      Add (Add c1 (ScalarMultInt hc1 (clientPrivateKey c)))
                          (ScalarMultInt m (clientPrivateKey c)) in
                    Returns
                      (Some {| EnrollmentRecord.NS := EnrollmentResponse.NS resp;
                               EnrollmentRecord.NC := nc;
                               EnrollmentRecord.T0 := Marshal t0;
                               EnrollmentRecord.T1 := Marshal t1 |},
                       Some key, err)
                end
            end
      end end
  end.

Definition CreateVerifyPasswordRequest (c : t) (password : bytes)
  (rec : option EnrollmentRecord.t)
  : option VerifyPasswordRequest.t * option error :=
  match rec with
  | None => (None, Some (errorsNew "invalid client record"))
  | Some rec =>
      if ((List.length (EnrollmentRecord.NC rec) =? 0)%nat
          || (List.length (EnrollmentRecord.NS rec) =? 0)%nat
          || (List.length (EnrollmentRecord.T0 rec) =? 0)%nat)%bool
      then (None, Some (errorsNew "invalid client record"))
      else
        let hc0 := hashToPoint dhc0 [EnrollmentRecord.NC rec; password] in
        let minusY := gf.Neg (clientPrivateKey c) in
        match PointUnmarshal (EnrollmentRecord.T0 rec) with
        | Err _ => (None, Some (errorsNew "invalid proof"))
        | Ok t0 =>
            let c0 := Add t0 (ScalarMultInt hc0 minusY) in
            (Some {| VerifyPasswordRequest.C0 := Marshal c0;
                     VerifyPasswordRequest.NS := EnrollmentRecord.NS rec |}, None)
        end
  end.

Definition validateProofOfFail (c : t) (resp : VerifyPasswordResponse.t)
  (c0 c1 hs0 hc0 hc1 : Point) : option error :=
  match Parse.ProofOfFail (VerifyPasswordResponse.ProofFail resp),
        VerifyPasswordResponse.ProofFail resp with
  | Ok (term1, term2, term3, term4, blindA, blindB), Some pf =>
      let challenge :=
        hashZ proofError [serverPublicKeyBytes c; Marshal curveG; Marshal c0;
                          VerifyPasswordResponse.C1 resp;
                          ProofOfFail.Term1 pf; ProofOfFail.Term2 pf;
                          ProofOfFail.Term3 pf; ProofOfFail.Term4 pf] in
      let t1 := Add (Add term1 term2) (ScalarMultInt c1 challenge) in
      let t2 := Add (ScalarMultInt c0 blindA) (ScalarMultInt hs0 blindB) in
      if negb (Equal t1 t2)
      then Some (errorsNew "proof verification failed")
      else
        let t1 := Add term3 term4 in
        let t2 := Add (ScalarMultInt (serverPublicKey c) blindA)
                      (ScalarBaseMultInt blindB) in
        if negb (Equal t1 t2)
        then Some (errorsNew "verification failed")
        else None
  | _, _ => Some (errorsNew "invalid public key")
  end.

(** Named results [(key, err)].  [gf.Inv] has no error result: where it
    fails, the call does not return. *)
Definition CheckResponseAndDecrypt (c : t) (password : bytes)
  (rec : option EnrollmentRecord.t) (resp : option VerifyPasswordResponse.t)
  : outcome (option bytes * option error) :=
  match resp with
  | None => Returns (None, Some (errorsNew "invalid response"))
  | Some resp =>
      match Parse.EnrollmentRecord rec, rec with
      | Ok (t0, t1), Some rc =>
          match PointUnmarshal (VerifyPasswordResponse.C1 resp) with
          | Err err => Returns (None, Some err)
          | Ok c1 =>
              let hc0 := hashToPoint dhc0 [EnrollmentRecord.NC rc; password] in
              let hc1 := hashToPoint dhc1 [EnrollmentRecord.NC rc; password] in
              let minusY := gf.Neg (clientPrivateKey c) in
              let c0 := Add t0 (ScalarMultInt hc0 minusY) in
              if VerifyPasswordResponse.Res resp
              then
                if negb (validateProofOfSuccess c
                           (VerifyPasswordResponse.ProofSuccess resp)
                           (EnrollmentRecord.NS rc) c0 c1 (Marshal c0)
                           (VerifyPasswordResponse.C1 resp))
                then Returns (None, Some (errorsNew "result is ok but proof is invalid"))
                else
                  match gf.Inv (clientPrivateKey c) with
                  | None => Panics
                  | Some inv =>
                      let m :=
                        ScalarMultInt
                          (Add (Add t1 (Neg c1)) (ScalarMultInt hc1 minusY)) inv in
                      let '(key, err) :=
                        hkdfRead (Marshal m) [] (list_byte_of_string "Secret") 32 in
                      Returns (Some key, err)
                  end
              else
                let hs0 := hashToPoint dhs0 [EnrollmentRecord.NS rc] in
                let err := validateProofOfFail c resp c0 c1 hs0 hc0 hc1 in
                Returns (None, err)
          end
      | _, _ => Returns (None, Some (errorsNew "invalid record"))
      end
  end.

(** [Rotate] updates the client in place: the new client value is returned
    with the error. *)
Definition Rotate (c : t) (token : option UpdateToken.t) : t * option error :=
  match Parse.UpdateToken token with
  | Err err => (c, Some err)
  | Ok (a, b) =>
      let priv := gf.Mul (clientPrivateKey c) a in
      let pub := Add (ScalarMultInt (serverPublicKey c) a) (ScalarBaseMultInt b) in
      ({| clientPrivateKey := priv;
          clientPrivateKeyBytes := BigInt.Bytes priv;
          serverPublicKey := pub;
          serverPublicKeyBytes := Marshal pub |}, None)
  end.

Definition UpdateRecord (rec : option EnrollmentRecord.t)
  (token : option UpdateToken.t) : option EnrollmentRecord.t * option error :=
  match Parse.UpdateToken token with
  | Err err => (None, Some err)
  | Ok (a, b) =>
      match Parse.EnrollmentRecord rec, rec with
      | Ok (t0, t1), Some rc =>
          let hs0 := hashToPoint dhs0 [EnrollmentRecord.NS rc] in
          let hs1 := hashToPoint dhs1 [EnrollmentRecord.NS rc] in
          let t00 := Add (ScalarMultInt t0 a) (ScalarMultInt hs0 b) in
          let t11 := Add (ScalarMultInt t1 a) (ScalarMultInt hs1 b) in
          (Some {| EnrollmentRecord.T0 := Marshal t00;
                   EnrollmentRecord.T1 := Marshal t11;
                   EnrollmentRecord.NS := EnrollmentRecord.NS rc;
                   EnrollmentRecord.NC := EnrollmentRecord.NC rc |}, None)
      | Err err, _ => (None, Some err)
      | Ok _, None => (None, Some (errorsNew "invalid record"))
      end
  end.

End Engine.
End Client.

(** ** Linear combinations of points

    Every point built in the protocol is a linear combination of a few base
    points; [pexp] is the syntax of such combinations, [coef] the scalar an
    expression puts on a base point. *)
Inductive pexp : Type :=
| PAtom (i : nat)
| PInf
| PAdd (a b : pexp)
| PNeg (a : pexp)
| PSmul (a : pexp) (k : Z).

Fixpoint coef (i : nat) (e : pexp) : Z :=
  match e with
  | PAtom j => if Nat.eqb i j then 1 else 0
  | PInf => 0
  | PAdd a b => coef i a + coef i b
  | PNeg a => - coef i a
  | PSmul a k => coef i a * k
  end.

Fixpoint all_below (n : nat) (P : nat -> Prop) : Prop :=
  match n with
  | O => True
  | S m => P m /\ all_below m P
  end.

Section LinearCombinations.
Context `{C : Curve}.

Fixpoint denote (env : list Point) (e : pexp) : Point :=
  match e with
  | PAtom i => nth i env Inf
  | PInf => Inf
  | PAdd a b => Add (denote env a) (denote env b)
  | PNeg a => Neg (denote env a)
  | PSmul a k => ScalarMultInt (denote env a) k
  end.

Fixpoint lincomb (env : list Point) (i : nat) (f : nat -> Z) : Point :=
  match env with
  | [] => Inf
  | p :: rest => Add (ScalarMultInt p (f i)) (lincomb rest (S i) f)
  end.

End LinearCombinations.

(** ** A small instance of the interface

    The additive group of the integers modulo 7, with base point 1: a group
    of prime order on which every embedded function evaluates.  It gives the
    concrete inputs at which the theorems below are instantiated. *)
Module Toy.

Inductive point : Type := P0 | P1 | P2 | P3 | P4 | P5 | P6.

Definition to_Z (p : point) : Z :=
  match p with
  | P0 => 0 | P1 => 1 | P2 => 2 | P3 => 3 | P4 => 4 | P5 => 5 | P6 => 6
  end.

Definition of_Z (z : Z) : point :=
  match z mod 7 with
  | 0 => P0 | 1 => P1 | 2 => P2 | 3 => P3 | 4 => P4 | 5 => P5 | _ => P6
  end.

Definition add (p q : point) : point := of_Z (to_Z p + to_Z q).
Definition neg (p : point) : point := of_Z (- to_Z p).
Definition smul (p : point) (k : Z) : point := of_Z (to_Z p * k).
Definition eqb (p q : point) : bool := to_Z p =? to_Z q.

Definition marshal (p : point) : bytes :=
  x04 :: repeat x00 63 ++ [BigInt.Zbyte (to_Z p)].

Fixpoint bytes_eqb (a b : bytes) : bool :=
  match a, b with
  | [], [] => true
  | x :: a', y :: b' => Byte.eqb x y && bytes_eqb a' b'
  | _, _ => false
  end.

Definition unmarshal (b : bytes) : result point :=
  match find (fun p => bytes_eqb (marshal p) b) [P1; P2; P3; P4; P5; P6] with
  | Some p => Ok p
  | None => Err (errorsNew "invalid curve point")
  end.

Definition digest (d : bytes) (l : list bytes) : Z :=
  fold_left (fun acc b => (acc * 31 + BigInt.byteZ b + 1) mod 1000003)
            (d ++ List.concat l) 7.

Definition hash_point (d : bytes) (l : list bytes) : point :=
  of_Z (1 + digest d l mod 6).

Definition hash_scalar (d : bytes) (l : list bytes) : Z := digest d l mod 7.

Definition hkdf (secret salt info : bytes) (need : nat) : bytes :=
  firstn need (rev secret ++ salt ++ info ++ repeat x00 need).

Definition marshal_keypair (pub priv : bytes) : result bytes :=
  if (List.length pub <? 256)%nat
  then Ok (BigInt.Zbyte (Z.of_nat (List.length pub)) :: pub ++ priv)
  else Err (errorsNew "invalid keypair").

Definition unmarshal_keypair (b : bytes) : result keypair :=
  match b with
  | [] => Err (errorsNew "invalid keypair")
  | h :: t =>
      let n := Z.to_nat (BigInt.byteZ h) in
      if (List.length t <? n)%nat
      then Err (errorsNew "invalid keypair")
      else Ok {| PublicKey := firstn n t; PrivateKey := skipn n t |}
  end.

End Toy.

(** ** [HashZ] (utils.go, lines 35-50, and the unnamed older file)

    [kdf i] is what the [i]-th [kdf.Read(h)] leaves in the 32-byte buffer
    [h], the first read being the one before the loop; the reader is
    [hkdf.New(sha256.New, data, data, "HashZ")], so the stream is a function
    of [data] used as secret and as salt.  The result is [None] when [fuel]
    iterations were not enough. *)
Module UtilsHash.

Fixpoint HashZ_loop (fuel : nat) (kdf : nat -> bytes) (i : nat)
  (z : option bytes) : option bytes :=
  match z with
  | Some v => Some v
  | None =>
      match fuel with
      | O => None
      | S f =>
          let h := kdf i in
          if BigInt.Cmp (BigInt.SetBytes h) P256_N >=? 0
          then HashZ_loop f kdf (S i) None
          else HashZ_loop f kdf i (Some h)
      end
  end.

Definition HashZ (hkdfSha256 : bytes -> bytes -> bytes -> nat -> bytes)
  (fuel : nat) (data : bytes) : option bytes :=
  let kdf := hkdfSha256 data data (list_byte_of_string "HashZ") in
  HashZ_loop fuel kdf O None.

End UtilsHash.

Module Unnamed0Hash.

(** The older variant returns a [*big.Int]. *)
Fixpoint HashZ_loop (fuel : nat) (kdf : nat -> bytes) (i : nat)
  (z : option Z) : option Z :=
  match z with
  | Some v => Some v
  | None =>
      match fuel with
      | O => None
      | S f =>
          let h := kdf i in
          if BigInt.Cmp (BigInt.SetBytes h) P256_N >=? 0
          then HashZ_loop f kdf (S i) None
          else HashZ_loop f kdf i (Some (BigInt.SetBytes h))
      end
  end.

Definition HashZ (hkdfSha256 : bytes -> bytes -> bytes -> nat -> bytes)
  (fuel : nat) (data : bytes) : option Z :=
  let kdf := hkdfSha256 data data (list_byte_of_string "HashZ") in
  HashZ_loop fuel kdf O None.

End Unnamed0Hash.

(** ** Key helpers of the client (utils.go, lines 113-116 and 394-416) *)
Module ClientKeys.
Section Engine.
Context `{Prim : Primitives}.

(** [randomZ().Bytes()]: the draw is an argument. *)
Definition GenerateClientKey (rnd : Z) : bytes := BigInt.Bytes rnd.

(** Named results [(newClientPrivate, newServerPublic, err)]. *)
Definition RotateClientKeys (clientPrivate serverPublic : bytes)
  (token : option UpdateToken.t)
  : option bytes * option bytes * option error :=
  match Parse.UpdateToken token with
  | Err err => (None, None, Some err)
  | Ok (a, b) =>
      match PointUnmarshal serverPublic with
      | Err err => (None, None, Some err)
      | Ok pub =>
          if (List.length clientPrivate =? 0)%nat
          then (None, None, Some (errorsNew "invalid private key"))
          else
            let newClientPrivate := BigInt.Bytes (gf.MulBytes clientPrivate a) in
            let pub := Add (ScalarMultInt pub a) (ScalarBaseMultInt b) in
            (Some newClientPrivate, Some (Marshal pub), None)
      end
  end.

End Engine.
End ClientKeys.

(** ** Composition of update tokens

    The token that stands for the rotation [t1] followed by the rotation
    [t2]: [y·a1·a2 + (b1·a2 + b2)]. *)
Definition composeTokens `{C : Curve} (t1 t2 : UpdateToken.t) : UpdateToken.t :=
  let a1 := BigInt.SetBytes (UpdateToken.A t1) in
  let b1 := BigInt.SetBytes (UpdateToken.B t1) in
  let a2 := BigInt.SetBytes (UpdateToken.A t2) in
  let b2 := BigInt.SetBytes (UpdateToken.B t2) in
  {| UpdateToken.A := BigInt.Bytes (gf.Mul a1 a2);
     UpdateToken.B := BigInt.Bytes (gf.Add (gf.Mul b1 a2) b2) |}.

(** ** Shapes of the results

    A Go pair [(value, err)] that holds exactly one of the two. *)
Definition result_xor_error {A : Type} (r : option A * option error) : Prop :=
  match r with
  | (Some _, None) | (None, Some _) => True
  | _ => False
  end.

(** The same for a triple [(value, value, err)]: both values or the error. *)
Definition results_xor_error {A B : Type}
  (r : option A * option B * option error) : Prop :=
  match r with
  | (Some _, Some _, None) | (None, None, Some _) => True
  | _ => False
  end.

(** ** Properties of a client value *)

(** The cached byte strings of a client agree with the values they cache. *)
Definition cached_bytes_consistent `{C : Curve} `{Prim : !Primitives} (c : Client.t) : Prop :=
  BigInt.SetBytes (Client.clientPrivateKeyBytes c) = Client.clientPrivateKey c /\
  Client.serverPublicKeyBytes c = Marshal (Client.serverPublicKey c) /\
  List.length (Client.serverPublicKeyBytes c) = 65%nat.

(** The clients a program can hold: made by [NewClient], then rotated any
    number of times. *)
Inductive client_reachable `{C : Curve} `{Prim : !Primitives} : Client.t -> Prop :=
| reach_NewClient (privateKey serverPublicKey : bytes) (c : Client.t) :
    Client.NewClient privateKey serverPublicKey = (Some c, None) ->
    client_reachable c
| reach_Rotate (c c' : Client.t) (token : option UpdateToken.t) (err : option error) :
    client_reachable c ->
    Client.Rotate c token = (c', err) ->
    client_reachable c'.

(** ** Honest keys

    A server keypair and a client that belong together: the keypair holds
    the scalar [y] and the point [y·G], the client caches that point. *)
Definition honest_keys `{C : Curve} `{Prim : !Primitives}
  (kp : keypair) (c : Client.t) (y : Z) : Prop :=
  0 < y < orderN /\
  PrivateKey kp = BigInt.Bytes y /\
  PublicKey kp = Marshal (ScalarMultInt curveG y) /\
  Client.serverPublicKey c = ScalarMultInt curveG y /\
  Client.serverPublicKeyBytes c = PublicKey kp.

(** The key both [EnrollAccount] and [CheckResponseAndDecrypt] read from
    [hkdf.New(sha512.New512_256, m.Marshal(), nil, "Secret")]. *)
Definition derivedKey `{C : Curve} `{Prim : !Primitives} (m : Point) : bytes :=
  hkdfSha512_256 (Marshal m) [] (list_byte_of_string "Secret") 32.

(** ** Random draws *)

(** A reader whose first draw is 32 bytes [0xff] (above the group order) and
    whose later draws are the scalar 1. *)
Definition reader_out_of_range (i : nat) : bytes :=
  match i with
  | O => repeat xff 32
  | S _ => repeat x00 31 ++ [x01]
  end.

(** ** Facts about the byte encodings *)
Module BigIntFacts.
Import BigInt.

Lemma byteZ_range (b : byte) : 0 <= byteZ b < 256.
Proof. unfold byteZ. pose proof (Byte.to_N_bounded b). lia. Qed.

Lemma byteZ_Zbyte (z : Z) : byteZ (Zbyte z) = z mod 256.
Proof.
  unfold byteZ, Zbyte.
  pose proof (Z.mod_pos_bound z 256 ltac:(lia)) as B.
  destruct (Byte.of_N (Z.to_N (z mod 256))) as [b|] eqn:E.
  - apply Byte.to_of_N in E. rewrite E. lia.
  - apply Byte.of_N_None_iff in E. lia.
Qed.

Lemma SetBytes_from (buf : bytes) (z : Z) :
  fold_left (fun acc b => acc * 256 + byteZ b) buf z =
  z * 256 ^ Z.of_nat (List.length buf) + SetBytes buf.
Proof.
  unfold SetBytes. revert z.
  induction buf as [|b buf IH]; intros z.
  - simpl. lia.
  - cbn [fold_left List.length]. rewrite IH, (IH (0 * 256 + byteZ b)).
    rewrite Nat2Z.inj_succ, Z.pow_succ_r by lia. ring.
Qed.

Lemma SetBytes_nonneg (buf : bytes) : 0 <= SetBytes buf.
Proof.
  unfold SetBytes.
  assert (forall a, 0 <= a ->
            0 <= fold_left (fun acc b => acc * 256 + byteZ b) buf a) as H.
  { induction buf as [|b buf IH]; intros a Ha; simpl; [assumption|].
    apply IH. pose proof (byteZ_range b). lia. }
  apply H. lia.
Qed.

Lemma bytes_loop_spec (fuel : nat) (z : Z) (acc : bytes) :
  0 <= z < 2 ^ Z.of_nat fuel ->
  fold_left (fun a b => a * 256 + byteZ b) (bytes_loop fuel z acc) 0 =
  fold_left (fun a b => a * 256 + byteZ b) acc z.
Proof.
  revert z acc. induction fuel as [|fuel IH]; intros z acc Hz.
  - simpl in *. replace z with 0 by lia. reflexivity.
  - cbn [bytes_loop]. destruct (Z.leb_spec z 0) as [H0|H0].
    + replace z with 0 by lia. reflexivity.
    + rewrite IH.
      * cbn [fold_left]. rewrite byteZ_Zbyte. f_equal.
        pose proof (Z.div_mod z 256). lia.
      * rewrite Nat2Z.inj_succ, Z.pow_succ_r in Hz by lia.
        split; [apply Z.div_pos; lia|].
        apply Z.div_lt_upper_bound; lia.
Qed.

(** [SetBytes] undoes [Bytes] on every non-negative integer. *)
Lemma SetBytes_Bytes (z : Z) : 0 <= z -> SetBytes (Bytes z) = z.
Proof.
  intros Hz. unfold SetBytes, Bytes. rewrite Z.abs_eq by assumption.
  rewrite bytes_loop_spec; [reflexivity|].
  split; [assumption|].
  destruct (Z.eq_dec z 0) as [->|Hne]; [simpl; lia|].
  rewrite Nat2Z.inj_succ, Z2Nat.id by apply Z.log2_nonneg.
  apply Z.log2_spec. lia.
Qed.

End BigIntFacts.

(** ** Consequences of the group laws *)
Section Algebra.
Context `{C : Curve}.

Lemma orderN_ge_2 : 2 <= orderN.
Proof. apply Z.prime_ge_2, orderN_prime. Qed.

Lemma Add_Inf_r (p : Point) : Add p Inf = p.
Proof. rewrite Add_comm. apply Add_Inf_l. Qed.

Lemma Add_cancel_l (p q r : Point) : Add p q = Add p r -> q = r.
Proof.
  intros E.
  rewrite <- (Add_Inf_l q), <- (Add_Inf_l r), <- (Add_Neg_r p).
  rewrite (Add_comm p (Neg p)), <- !Add_assoc. now rewrite E.
Qed.

Lemma ScalarMultInt_0 (p : Point) : ScalarMultInt p 0 = Inf.
Proof.
  apply (Add_cancel_l (ScalarMultInt p 0)).
  rewrite <- ScalarMultInt_plus, Add_Inf_r. reflexivity.
Qed.

Lemma ScalarMultInt_Inf (k : Z) : ScalarMultInt Inf k = Inf.
Proof.
  rewrite <- (ScalarMultInt_0 Inf) at 1.
  rewrite ScalarMultInt_mult. apply ScalarMultInt_0.
Qed.

Lemma ScalarMultInt_mod (p : Point) (k : Z) :
  ScalarMultInt p (k mod orderN) = ScalarMultInt p k.
Proof.
  pose proof orderN_ge_2.
  rewrite (Z.div_mod k orderN) at 2 by lia.
  rewrite ScalarMultInt_plus, <- ScalarMultInt_mult, ScalarMultInt_order.
  now rewrite ScalarMultInt_Inf, Add_Inf_l.
Qed.

Lemma ScalarMultInt_eqm (p : Point) (a b : Z) :
  a mod orderN = b mod orderN -> ScalarMultInt p a = ScalarMultInt p b.
Proof.
  intros E. rewrite <- (ScalarMultInt_mod p a), <- (ScalarMultInt_mod p b).
  now rewrite E.
Qed.

Lemma Neg_ScalarMultInt (p : Point) : Neg p = ScalarMultInt p (-1).
Proof.
  apply (Add_cancel_l p). rewrite Add_Neg_r.
  rewrite <- (ScalarMultInt_1 p) at 1.
  rewrite <- ScalarMultInt_plus. symmetry. apply ScalarMultInt_0.
Qed.

Lemma ScalarMultInt_nonzero (p : Point) (k : Z) :
  p <> Inf -> k mod orderN <> 0 -> ScalarMultInt p k <> Inf.
Proof. intros Hp Hk E. destruct (ScalarMultInt_Inf_inv _ _ E); contradiction. Qed.

Lemma Equal_refl (p : Point) : Equal p p = true.
Proof. now apply Equal_true_iff. Qed.

Lemma Equal_false_iff (p q : Point) : Equal p q = false <-> p <> q.
Proof.
  pose proof (Equal_true_iff p q) as E.
  destruct (Equal p q); split; intros; try congruence.
  - exfalso. apply H. now apply E.
  - intros ->. destruct E as [_ E]. specialize (E eq_refl). discriminate.
Qed.

(** *** Normal form of a linear combination *)

Lemma lincomb_ext (env : list Point) (s : nat) (f g : nat -> Z) :
  (forall i, (s <= i < s + List.length env)%nat -> f i mod orderN = g i mod orderN) ->
  lincomb env s f = lincomb env s g.
Proof.
  revert s. induction env as [|p rest IH]; intros s E; simpl; [reflexivity|].
  rewrite (ScalarMultInt_eqm p (f s) (g s)) by (apply E; simpl; lia).
  rewrite (IH (S s)); [reflexivity|]. intros i Hi. apply E. simpl. lia.
Qed.

Lemma lincomb_zero (env : list Point) (s : nat) :
  lincomb env s (fun _ => 0) = Inf.
Proof.
  revert s. induction env as [|p rest IH]; intros s; simpl; [reflexivity|].
  now rewrite IH, ScalarMultInt_0, Add_Inf_l.
Qed.

Lemma lincomb_add (env : list Point) (s : nat) (f g : nat -> Z) :
  lincomb env s (fun i => f i + g i) = Add (lincomb env s f) (lincomb env s g).
Proof.
  revert s. induction env as [|p rest IH]; intros s; simpl.
  - now rewrite Add_Inf_l.
  - rewrite IH, ScalarMultInt_plus.
    rewrite <- !Add_assoc. f_equal.
    rewrite !Add_assoc. f_equal. apply Add_comm.
Qed.

Lemma lincomb_smul (env : list Point) (s : nat) (f : nat -> Z) (k : Z) :
  lincomb env s (fun i => f i * k) = ScalarMultInt (lincomb env s f) k.
Proof.
  revert s. induction env as [|p rest IH]; intros s; simpl.
  - now rewrite ScalarMultInt_Inf.
  - now rewrite IH, ScalarMultInt_Add, ScalarMultInt_mult.
Qed.

Lemma lincomb_atom (env : list Point) (s j : nat) :
  lincomb env s (fun i => if Nat.eqb i j then 1 else 0) =
  if (s <=? j)%nat then nth (j - s) env Inf else Inf.
Proof.
  revert s. induction env as [|p rest IH]; intros s; simpl.
  - destruct (s <=? j)%nat; [destruct (j - s)%nat|]; reflexivity.
  - rewrite IH. destruct (Nat.eqb_spec s j) as [->|Hne].
    + rewrite Nat.leb_refl, Nat.sub_diag, ScalarMultInt_1.
      replace (S j <=? j)%nat with false by (symmetry; apply Nat.leb_gt; lia).
      apply Add_Inf_r.
    + rewrite ScalarMultInt_0, Add_Inf_l.
      destruct (Nat.leb_spec (S s) j), (Nat.leb_spec s j); try lia; try reflexivity.
      replace (j - s)%nat with (S (j - S s)) by lia. reflexivity.
Qed.

Lemma denote_lincomb (env : list Point) (e : pexp) :
  denote env e = lincomb env 0 (fun i => coef i e).
Proof.
  induction e as [j| |a IHa b IHb|a IHa|a IHa k]; simpl.
  - rewrite lincomb_atom. simpl. now rewrite Nat.sub_0_r.
  - now rewrite lincomb_zero.
  - now rewrite lincomb_add, IHa, IHb.
  - rewrite Neg_ScalarMultInt, IHa, <- lincomb_smul.
    apply lincomb_ext. intros i _. f_equal. ring.
  - now rewrite lincomb_smul, IHa.
Qed.

Lemma all_below_spec (n : nat) (P : nat -> Prop) :
  all_below n P -> forall i, (i < n)%nat -> P i.
Proof.
  induction n as [|n IH]; simpl; intros H i Hi; [lia|].
  destruct H as [H0 H]. destruct (Nat.eq_dec i n) as [->|]; [assumption|].
  apply IH; [assumption|lia].
Qed.

(** Two expressions with congruent coefficients denote the same point. *)
Lemma denote_eq (env : list Point) (e1 e2 : pexp) :
  all_below (List.length env)
    (fun i => coef i e1 mod orderN = coef i e2 mod orderN) ->
  denote env e1 = denote env e2.
Proof.
  intros H. rewrite !denote_lincomb. apply lincomb_ext.
  intros i Hi. apply (all_below_spec _ _ H). lia.
Qed.

End Algebra.

(** *** A decision tactic for equalities between linear combinations *)

Ltac pt_add x l :=
  lazymatch l with
  | nil => constr:(cons x nil)
  | cons x _ => l
  | cons ?h ?t => let t' := pt_add x t in constr:(cons h t')
  end.

Ltac pt_index x l :=
  lazymatch l with
  | cons x _ => constr:(O)
  | cons _ ?t => let n := pt_index x t in constr:(S n)
  end.

Ltac pt_atoms e l :=
  lazymatch e with
  | @Add _ ?a ?b => let l := pt_atoms a l in pt_atoms b l
  | @Neg _ ?a => pt_atoms a l
  | @ScalarMultInt _ ?a _ => pt_atoms a l
  | @Inf _ => l
  | _ => pt_add e l
  end.

Ltac pt_reify e l :=
  lazymatch e with
  | @Add _ ?a ?b =>
      let ra := pt_reify a l in
      let rb := pt_reify b l in constr:(PAdd ra rb)
  | @Neg _ ?a => let ra := pt_reify a l in constr:(PNeg ra)
  | @ScalarMultInt _ ?a ?k => let ra := pt_reify a l in constr:(PSmul ra k)
  | @Inf _ => constr:(PInf)
  | _ => let n := pt_index e l in constr:(PAtom n)
  end.

#[local] Instance eqm_Equivalence (n : Z) : Equivalence (eqm n) := eqm_setoid n.
#[local] Instance add_eqm_Proper (n : Z) : Proper (eqm n ==> eqm n ==> eqm n) Z.add :=
  Zplus_eqm n.
#[local] Instance sub_eqm_Proper (n : Z) : Proper (eqm n ==> eqm n ==> eqm n) Z.sub :=
  Zminus_eqm n.
#[local] Instance mul_eqm_Proper (n : Z) : Proper (eqm n ==> eqm n ==> eqm n) Z.mul :=
  Zmult_eqm n.
#[local] Instance opp_eqm_Proper (n : Z) : Proper (eqm n ==> eqm n) Z.opp :=
  Zopp_eqm n.

(** Congruences modulo the group order: the reductions done by [gf] are
    dropped and what is left is a polynomial identity. *)
Ltac zmod_solve :=
  unfold gf.AddBytes, gf.MulBytes, gf.Add, gf.Mul, gf.Neg;
  lazymatch goal with
  | |- ?a mod ?n = ?b mod ?n => change (eqm n a b)
  end;
  repeat rewrite Zmod_eqm;
  unfold eqm; f_equal; ring.

Ltac pt_eq :=
  unfold ScalarBaseMultInt, ScalarBaseMult, ScalarMult;
  lazymatch goal with
  | |- @eq (@Point ?C) ?L ?R =>
      let l := pt_atoms L (@nil (@Point C)) in
      let l := pt_atoms R l in
      let eL := pt_reify L l in
      let eR := pt_reify R l in
      change (denote l eL = denote l eR);
      apply denote_eq;
      cbn [all_below List.length coef Nat.eqb];
      repeat split; zmod_solve
  end.


(** ** The small instance satisfies the interface *)
Module ToyFacts.
Import Toy.

Lemma prime_7 : Z.prime 7.
Proof.
  split; [lia|]. intros n Hn [z Hz].
  assert (n = 2 \/ n = 3 \/ n = 4 \/ n = 5 \/ n = 6) as Hc by lia.
  destruct Hc as [->|[->|[->|[->| ->]]]]; lia.
Qed.

Lemma to_Z_range (p : point) : 0 <= to_Z p < 7.
Proof. destruct p; simpl; lia. Qed.

Lemma to_Z_of_Z (z : Z) : to_Z (of_Z z) = z mod 7.
Proof.
  unfold of_Z. pose proof (Z.mod_pos_bound z 7 ltac:(lia)) as B.
  assert (z mod 7 = 0 \/ z mod 7 = 1 \/ z mod 7 = 2 \/ z mod 7 = 3 \/
          z mod 7 = 4 \/ z mod 7 = 5 \/ z mod 7 = 6) as Hc by lia.
  destruct Hc as [E|[E|[E|[E|[E|[E|E]]]]]]; rewrite E; reflexivity.
Qed.

Lemma of_Z_to_Z (p : point) : of_Z (to_Z p) = p.
Proof. destruct p; reflexivity. Qed.

Lemma to_Z_inj (p q : point) : to_Z p = to_Z q -> p = q.
Proof. intros E. rewrite <- (of_Z_to_Z p), <- (of_Z_to_Z q). now rewrite E. Qed.

Lemma of_Z_eqm (a b : Z) : a mod 7 = b mod 7 -> of_Z a = of_Z b.
Proof. intros E. unfold of_Z. now rewrite E. Qed.

Lemma smul_plus (p : point) (a b : Z) :
  smul p (a + b) = add (smul p a) (smul p b).
Proof.
  unfold smul, add. rewrite !to_Z_of_Z. apply of_Z_eqm.
  rewrite <- Z.add_mod by lia. f_equal. ring.
Qed.

Lemma smul_mult (p : point) (a b : Z) : smul (smul p a) b = smul p (a * b).
Proof.
  unfold smul. rewrite to_Z_of_Z. apply of_Z_eqm.
  rewrite Z.mul_mod_idemp_l by lia. f_equal. ring.
Qed.

Lemma smul_add (p q : point) (a : Z) :
  smul (add p q) a = add (smul p a) (smul q a).
Proof.
  unfold smul, add. rewrite !to_Z_of_Z. apply of_Z_eqm.
  rewrite Z.mul_mod_idemp_l, <- Z.add_mod by lia. f_equal. ring.
Qed.

Lemma smul_order (p : point) : smul p 7 = P0.
Proof.
  unfold smul. apply to_Z_inj. rewrite to_Z_of_Z. apply Z.mod_mul. lia.
Qed.

Lemma smul_P0_inv (p : point) (k : Z) :
  smul p k = P0 -> p = P0 \/ k mod 7 = 0.
Proof.
  intros E. apply (f_equal to_Z) in E. unfold smul in E.
  rewrite to_Z_of_Z in E. change (to_Z P0) with 0 in E.
  apply Z.mod_divide in E; [|lia].
  apply (Z.divide_prime_mul _ _ _ prime_7) in E. destruct E as [E|E].
  - left. apply to_Z_inj. pose proof (to_Z_range p).
    destruct E as [z Hz]. change (to_Z P0) with 0. lia.
  - right. apply Z.mod_divide; [lia|assumption].
Qed.

Lemma eqb_true_iff (p q : point) : eqb p q = true <-> p = q.
Proof.
  unfold eqb. rewrite Z.eqb_eq. split; [apply to_Z_inj|now intros ->].
Qed.

Lemma bytes_eqb_true (a b : bytes) : bytes_eqb a b = true -> a = b.
Proof.
  revert b. induction a as [|x a IH]; intros [|y b]; simpl; try discriminate.
  - reflexivity.
  - intros H. apply andb_true_iff in H. destruct H as [H1 H2].
    apply Byte.byte_dec_bl in H1. apply IH in H2. now subst.
Qed.

Lemma unmarshal_marshal (p : point) : p <> P0 -> unmarshal (marshal p) = Ok p.
Proof. destruct p; [contradiction| | | | | |]; intros _; reflexivity. Qed.

Lemma unmarshal_Ok (b : bytes) (p : point) :
  unmarshal b = Ok p -> marshal p = b /\ p <> P0.
Proof.
  unfold unmarshal.
  destruct (find _ _) as [q|] eqn:E; [|discriminate].
  intros H. injection H as ->. apply find_some in E. destruct E as [Hin Hb].
  split; [now apply bytes_eqb_true|].
  simpl in Hin. intuition congruence.
Qed.

Lemma toy_add_comm (p q : point) : add p q = add q p.
Proof. destruct p, q; reflexivity. Qed.

Lemma toy_add_assoc (p q r : point) : add p (add q r) = add (add p q) r.
Proof. destruct p, q, r; reflexivity. Qed.

Lemma toy_add_P0_l (p : point) : add P0 p = p.
Proof. destruct p; reflexivity. Qed.

Lemma toy_add_neg_r (p : point) : add p (neg p) = P0.
Proof. destruct p; reflexivity. Qed.

Lemma toy_smul_1 (p : point) : smul p 1 = p.
Proof. destruct p; reflexivity. Qed.

Lemma toy_generator_valid : P1 <> P0.
Proof. discriminate. Qed.

Lemma toy_marshal_length (p : point) : List.length (marshal p) = 65%nat.
Proof. destruct p; reflexivity. Qed.

#[export] Instance curve : Curve :=
  {| Point := point; orderN := 7; Inf := P0; curveG := P1;
     Add := add; Neg := neg; ScalarMultInt := smul; Equal := eqb;
     Marshal := marshal; PointUnmarshal := unmarshal;
     orderN_prime := prime_7;
     Add_comm := toy_add_comm;
     Add_assoc := toy_add_assoc;
     Add_Inf_l := toy_add_P0_l;
     Add_Neg_r := toy_add_neg_r;
     ScalarMultInt_1 := toy_smul_1;
     ScalarMultInt_plus := smul_plus;
     ScalarMultInt_mult := smul_mult;
     ScalarMultInt_Add := smul_add;
     ScalarMultInt_order := smul_order;
     ScalarMultInt_Inf_inv := smul_P0_inv;
     Equal_true_iff := eqb_true_iff;
     curveG_valid := toy_generator_valid;
     Marshal_length := toy_marshal_length;
     PointUnmarshal_Marshal := unmarshal_marshal;
     PointUnmarshal_Ok := unmarshal_Ok |}.

Lemma hash_point_valid (d : bytes) (l : list bytes) : hash_point d l <> P0.
Proof.
  unfold hash_point. intros E. apply (f_equal to_Z) in E.
  rewrite to_Z_of_Z in E. change (to_Z P0) with 0 in E.
  pose proof (Z.mod_pos_bound (digest d l) 6 ltac:(lia)) as B.
  rewrite Z.mod_small in E; lia.
Qed.

Lemma unmarshal_marshal_keypair (pub priv kp : bytes) :
  marshal_keypair pub priv = Ok kp ->
  unmarshal_keypair kp = Ok {| PublicKey := pub; PrivateKey := priv |}.
Proof.
  unfold marshal_keypair, unmarshal_keypair.
  destruct (Nat.ltb_spec (List.length pub) 256) as [Hlt|]; [|discriminate].
  intros H. injection H as <-.
  rewrite BigIntFacts.byteZ_Zbyte, Z.mod_small, Nat2Z.id by lia.
  rewrite List.length_app.
  destruct (Nat.ltb_spec (List.length pub + List.length priv) (List.length pub));
    [lia|].
  rewrite firstn_app, Nat.sub_diag, firstn_all, skipn_app, Nat.sub_diag.
  rewrite skipn_all. simpl. now rewrite app_nil_r.
Qed.

#[export] Instance primitives : Primitives :=
  {| dhc0 := [x00]; dhc1 := [x01]; dhs0 := [x02]; dhs1 := [x03]; dm := [x04];
     proofOk := [x05]; proofError := [x06];
     hashToPoint := hash_point;
     hashZ := hash_scalar;
     hkdfSha512_256 := hkdf;
     marshalKeypair := marshal_keypair;
     unmarshalKeypair := unmarshal_keypair;
     hashToPoint_valid := hash_point_valid;
     unmarshalKeypair_marshalKeypair := unmarshal_marshal_keypair |}.

End ToyFacts.

(** ** [RandomZ]: what the loop does *)

Lemma Cmp_ge_0 (a b : Z) : (BigInt.Cmp a b >=? 0) = (b <=? a).
Proof.
  unfold BigInt.Cmp. destruct (Z.compare_spec a b), (Z.leb_spec b a);
    try reflexivity; lia.
Qed.

(** The loop body runs once: a draw below the order is returned. *)
Lemma RandomZ_returns_in_range (fuel : nat) (reader : nat -> bytes) :
  BigInt.SetBytes (reader O) < P256_N ->
  Utils.RandomZ (S fuel) reader = Some (Returns (reader O)).
Proof.
  intros H. unfold Utils.RandomZ. cbn [Utils.RandomZ_loop].
  rewrite Cmp_ge_0. destruct (Z.leb_spec P256_N (BigInt.SetBytes (reader O))); [lia|].
  destruct fuel; reflexivity.
Qed.

(** A draw at or above the order is not rejected and redrawn: the call panics. *)
Lemma RandomZ_panics_out_of_range (fuel : nat) (reader : nat -> bytes) :
  P256_N <= BigInt.SetBytes (reader O) ->
  Utils.RandomZ (S fuel) reader = Some Panics.
Proof.
  intros H. unfold Utils.RandomZ. cbn [Utils.RandomZ_loop].
  rewrite Cmp_ge_0. destruct (Z.leb_spec P256_N (BigInt.SetBytes (reader O))); [|lia].
  reflexivity.
Qed.

(** C3 (the code departs from the claim).  On the draw sequence
    [reader_out_of_range] the first sample is at least the group order; the
    claim says [RandomZ] rejects it and returns from a later draw, the code
    panics, in both variants of the function, however much fuel the loop is
    given. *)
Theorem RandomZ_panics_instead_of_retrying :
  P256_N <= BigInt.SetBytes (reader_out_of_range O) /\
  BigInt.SetBytes (reader_out_of_range 1) < P256_N /\
  (forall fuel, Utils.RandomZ (S fuel) reader_out_of_range = Some Panics) /\
  (forall fuel, Unnamed0.RandomZ (S fuel) reader_out_of_range = Some Panics).
Proof.
  split; [vm_compute; discriminate|].
  split; [vm_compute; reflexivity|].
  split; intros fuel.
  - apply RandomZ_panics_out_of_range. vm_compute. discriminate.
  - unfold Unnamed0.RandomZ. cbn [Unnamed0.RandomZ_loop].
    replace (BigInt.Cmp _ _ >=? 0) with true by (vm_compute; reflexivity).
    reflexivity.
Qed.

Section ProtocolFacts.
Context `{C : Curve} `{Prim : !Primitives}.

Lemma hkdfRead_32 (secret salt info : bytes) :
  hkdfRead secret salt info 32 = (hkdfSha512_256 secret salt info 32, None).
Proof. reflexivity. Qed.

(** C5.  A nil request, or a request whose [NS] is empty or longer than 32
    bytes, gets no response and an error; with a server keypair that decodes
    the error is the invalid-request error, whatever the other fields of the
    request and the random draws are. *)
Theorem VerifyPassword_rejects_malformed_NS
  (serverKeypair : bytes) (req : option VerifyPasswordRequest.t)
  (rnd_x rnd_r rnd_a rnd_b : Z) :
  (req = None \/
   exists r, req = Some r /\
     (List.length (VerifyPasswordRequest.NS r) = 0%nat \/
      (32 < List.length (VerifyPasswordRequest.NS r))%nat)) ->
  fst (Server.VerifyPassword serverKeypair req rnd_x rnd_r rnd_a rnd_b) = None /\
  snd (Server.VerifyPassword serverKeypair req rnd_x rnd_r rnd_a rnd_b) <> None /\
  (forall kp, unmarshalKeypair serverKeypair = Ok kp ->
     snd (Server.VerifyPassword serverKeypair req rnd_x rnd_r rnd_a rnd_b) =
     Some (errorsNew "Invalid password verify request")).
Proof.
  intros Hreq. unfold Server.VerifyPassword.
  destruct (unmarshalKeypair serverKeypair) as [kp|e].
  - assert (match req with
            | None => true
            | Some r =>
                ((32 <? List.length (VerifyPasswordRequest.NS r))%nat
                 || (List.length (VerifyPasswordRequest.NS r) =? 0)%nat)%bool
            end = true) as Hb.
    { destruct Hreq as [->|[r [-> [H0|H32]]]]; [reflexivity| |].
      - rewrite H0. apply orb_true_r.
      - apply orb_true_iff. left. apply Nat.ltb_lt. exact H32. }
    destruct req as [r|]; [rewrite Hb|]; simpl;
      (split; [reflexivity|split; [discriminate|intros; reflexivity]]).
  - simpl. split; [reflexivity|split; [discriminate|intros; discriminate]].
Qed.

(** C6.  For a proof whose three terms decode, the client accepts exactly
    when the three verification equations hold, with [HS0], [HS1] recomputed
    from the nonce and the challenge hashed from the cached server public key,
    the base point, the two points and the three terms. *)
Theorem validateProofOfSuccess_iff
  (c : Client.t) (proof : ProofOfSuccess.t) (nonce : bytes)
  (c0 c1 : Point) (c0b c1b : bytes) (term1 term2 term3 : Point) (blindX : Z) :
  Parse.ProofOfSuccess (Some proof) = Ok (term1, term2, term3, blindX) ->
  let hs0 := hashToPoint dhs0 [nonce] in
  let hs1 := hashToPoint dhs1 [nonce] in
  let challenge :=
    hashZ proofOk [Client.serverPublicKeyBytes c; Marshal curveG; c0b; c1b;
                   ProofOfSuccess.Term1 proof; ProofOfSuccess.Term2 proof;
                   ProofOfSuccess.Term3 proof] in
  Client.validateProofOfSuccess c (Some proof) nonce c0 c1 c0b c1b = true <->
  (Add term1 (ScalarMultInt c0 challenge) = ScalarMultInt hs0 blindX /\
   Add term2 (ScalarMultInt c1 challenge) = ScalarMultInt hs1 blindX /\
   Add term3 (ScalarMultInt (Client.serverPublicKey c) challenge) =
     ScalarMultInt curveG blindX).
Proof.
  intros Hparse hs0 hs1 challenge.
  unfold Client.validateProofOfSuccess. rewrite Hparse.
  fold hs0 hs1 challenge. unfold ScalarBaseMultInt.
  destruct (Equal (Add term1 _) _) eqn:E1; cbn [negb].
  2:{ apply Equal_false_iff in E1. split; [discriminate|tauto]. }
  destruct (Equal (Add term2 _) _) eqn:E2; cbn [negb].
  2:{ apply Equal_false_iff in E2. split; [discriminate|tauto]. }
  destruct (Equal (Add term3 _) _) eqn:E3; cbn [negb].
  2:{ apply Equal_false_iff in E3. split; [discriminate|tauto]. }
  apply Equal_true_iff in E1, E2, E3. tauto.
Qed.

(** C9.  Whenever [EnrollAccount] or [CheckResponseAndDecrypt] returns a
    non-nil error, the key it returns is nil. *)
Theorem client_returns_no_key_with_error :
  (forall c password resp rnd_nc rnd_mBuf rec key err,
     Client.EnrollAccount c password resp rnd_nc rnd_mBuf = Returns (rec, key, err) ->
     err <> None -> key = None) /\
  (forall c password rec resp key err,
     Client.CheckResponseAndDecrypt c password rec resp = Returns (key, err) ->
     err <> None -> key = None).
Proof.
  split.
  - intros c password resp rnd_nc rnd_mBuf rec key err H Herr.
    unfold Client.EnrollAccount in H.
    repeat match type of H with
           | Returns _ = Returns _ => injection H as <- <- <-
           | Panics = Returns _ => discriminate H
           | context [hkdfRead ?a ?b ?i 32] => rewrite (hkdfRead_32 a b i) in H
           | context [match ?x with _ => _ end] => destruct x
           | context [if ?x then _ else _] => destruct x
           end; try reflexivity; try congruence.
  - intros c password rec resp key err H Herr.
    unfold Client.CheckResponseAndDecrypt in H.
    repeat match type of H with
           | Returns _ = Returns _ => injection H as <- <-
           | Panics = Returns _ => discriminate H
           | context [hkdfRead ?a ?b ?i 32] => rewrite (hkdfRead_32 a b i) in H
           | context [match ?x with _ => _ end] => destruct x
           | context [if ?x then _ else _] => destruct x
           end; try reflexivity; try congruence.
Qed.

(** [NewClient] establishes the cached-bytes invariant. *)
Lemma NewClient_consistent (privateKey serverPublicKey : bytes) (c : Client.t) :
  Client.NewClient privateKey serverPublicKey = (Some c, None) ->
  cached_bytes_consistent c.
Proof.
  unfold Client.NewClient.
  destruct (List.length privateKey =? 0)%nat; [discriminate|].
  destruct (PointUnmarshal serverPublicKey) as [pub|e] eqn:E; [|discriminate].
  intros H. injection H as <-. apply PointUnmarshal_Ok in E. destruct E as [E _].
  unfold cached_bytes_consistent. cbn.
  repeat split; [now symmetry|].
  rewrite <- E. apply Marshal_length.
Qed.

(** [Rotate] re-establishes it from the rotated values, and leaves the
    client alone when the token does not parse. *)
Lemma Rotate_consistent (c c' : Client.t) (token : option UpdateToken.t)
  (err : option error) :
  cached_bytes_consistent c ->
  Client.Rotate c token = (c', err) ->
  cached_bytes_consistent c'.
Proof.
  intros Hc. unfold Client.Rotate.
  destruct (Parse.UpdateToken token) as [[a b]|e].
  - intros H. injection H as <- <-. unfold cached_bytes_consistent. cbn.
    repeat split; [|apply Marshal_length].
    apply BigIntFacts.SetBytes_Bytes. unfold gf.Mul.
    pose proof orderN_ge_2. apply Z.mod_pos_bound. lia.
  - intros H. injection H as <- <-. exact Hc.
Qed.

(** C10.  Every client made by [NewClient] and then rotated any number of
    times caches, as [clientPrivateKeyBytes], a big-endian encoding of
    [clientPrivateKey] and, as [serverPublicKeyBytes], the 65-byte [Marshal]
    of [serverPublicKey]. *)
Theorem reachable_client_consistent (c : Client.t) :
  client_reachable c -> cached_bytes_consistent c.
Proof.
  induction 1 as [privateKey serverPublicKey c H|c c' token err _ IH H].
  - exact (NewClient_consistent _ _ _ H).
  - exact (Rotate_consistent _ _ _ _ IH H).
Qed.

End ProtocolFacts.

Section ServerFacts.
Context `{C : Curve} `{Prim : !Primitives}.

Lemma scalar_mod_nonzero (z : Z) : 0 < z < orderN -> z mod orderN <> 0.
Proof. intros Hz. rewrite Z.mod_small; lia. Qed.

Lemma ScalarMult_Bytes (p : Point) (z : Z) :
  0 <= z -> ScalarMult p (BigInt.Bytes z) = ScalarMultInt p z.
Proof. intros Hz. unfold ScalarMult. now rewrite BigIntFacts.SetBytes_Bytes. Qed.

Lemma gf_nonneg (z : Z) : 0 <= z mod orderN.
Proof. pose proof orderN_ge_2. apply Z.mod_pos_bound. lia. Qed.

Lemma Add_Neg_eq (p q : Point) : Add p (Neg q) = Inf -> p = q.
Proof.
  intros E. apply (Add_cancel_l (Neg q)).
  rewrite (Add_comm (Neg q) p), E, (Add_comm (Neg q) q). symmetry. apply Add_Neg_r.
Qed.

(** Generation, publication and client construction give honest keys. *)
Lemma honest_keys_generated (y : Z) (serverKeypair pub clientKey : bytes)
  (c : Client.t) :
  0 < y < orderN ->
  Server.GenerateServerKeypair y = Ok serverKeypair ->
  Server.GetPublicKey serverKeypair = (Some pub, None) ->
  Client.NewClient clientKey pub = (Some c, None) ->
  exists kp,
    unmarshalKeypair serverKeypair = Ok kp /\
    honest_keys kp c y /\
    Client.clientPrivateKey c = BigInt.SetBytes clientKey.
Proof.
  intros Hy Hgen Hpub Hnew.
  unfold Server.GenerateServerKeypair in Hgen.
  apply unmarshalKeypair_marshalKeypair in Hgen.
  unfold Server.GetPublicKey in Hpub. rewrite Hgen in Hpub.
  injection Hpub as <-. cbn [PublicKey] in Hnew.
  unfold Client.NewClient in Hnew.
  destruct (List.length clientKey =? 0)%nat; [discriminate|].
  unfold ScalarBaseMult in Hnew. rewrite ScalarMult_Bytes in Hnew by lia.
  rewrite PointUnmarshal_Marshal in Hnew
    by (apply ScalarMultInt_nonzero;
        [apply curveG_valid|now apply scalar_mod_nonzero]).
  injection Hnew as <-.
  eexists. split; [exact Hgen|]. split; [|reflexivity].
  unfold honest_keys.
  cbn [PublicKey PrivateKey Client.serverPublicKey Client.serverPublicKeyBytes].
  unfold ScalarBaseMult. rewrite ScalarMult_Bytes by lia.
  repeat split; lia.
Qed.

(** The points and the proof returned by [proveFailure] on honest keys. *)
Lemma proveFailure_honest (kp : keypair) (c : Client.t) (y : Z)
  (c0 hs0 : Point) (rnd_r rnd_a rnd_b : Z) :
  honest_keys kp c y ->
  c0 <> Inf -> hs0 <> Inf -> ScalarMultInt hs0 y <> c0 ->
  0 < rnd_r < orderN -> 0 < rnd_a < orderN -> 0 < rnd_b < orderN ->
  exists c1 pf term1 term2 term3 term4 blindA blindB,
    Server.proveFailure kp c0 hs0 rnd_r rnd_a rnd_b = (c1, Some pf, None) /\
    c1 <> Inf /\
    Parse.ProofOfFail (Some pf) =
      Ok (term1, term2, term3, term4, blindA, blindB) /\
    let challenge :=
      hashZ proofError [PublicKey kp; Marshal curveG; Marshal c0; Marshal c1;
                        ProofOfFail.Term1 pf; ProofOfFail.Term2 pf;
                        ProofOfFail.Term3 pf; ProofOfFail.Term4 pf] in
    Add (Add term1 term2) (ScalarMultInt c1 challenge) =
      Add (ScalarMultInt c0 blindA) (ScalarMultInt hs0 blindB) /\
    Add term3 term4 =
      Add (ScalarMultInt (ScalarMultInt curveG y) blindA)
          (ScalarMultInt curveG blindB).
Proof.
  intros (Hy & Hpriv & Hpub & _ & _) Hc0 Hhs0 Hne Hr Ha Hb.
  assert (ScalarMultInt curveG y <> Inf) as HY
    by (apply ScalarMultInt_nonzero;
        [apply curveG_valid|now apply scalar_mod_nonzero]).
  unfold Server.proveFailure. cbv zeta.
  rewrite Hpub, (PointUnmarshal_Marshal _ HY).
  unfold ScalarBaseMult.
  rewrite !ScalarMult_Bytes by (unfold gf.MulBytes, gf.Mul; first [lia|apply gf_nonneg]).
  rewrite Hpriv. unfold gf.MulBytes, gf.AddBytes.
  rewrite !BigIntFacts.SetBytes_Bytes by lia.
  set (c1 := Add (ScalarMultInt c0 rnd_r)
                 (ScalarMultInt hs0 (gf.Mul y (gf.Neg rnd_r)))).
  assert (c1 = ScalarMultInt (Add c0 (Neg (ScalarMultInt hs0 y))) rnd_r) as Hc1
    by (unfold c1; pt_eq).
  assert (c1 <> Inf) as Hc1n.
  { rewrite Hc1. apply ScalarMultInt_nonzero; [|now apply scalar_mod_nonzero].
    intros E. apply Add_Neg_eq in E. congruence. }
  do 8 eexists. split; [reflexivity|]. split; [exact Hc1n|].
  unfold Parse.ProofOfFail. cbn [ProofOfFail.Term1 ProofOfFail.Term2
    ProofOfFail.Term3 ProofOfFail.Term4 ProofOfFail.BlindA ProofOfFail.BlindB].
  rewrite !PointUnmarshal_Marshal
    by (apply ScalarMultInt_nonzero;
        first [assumption|apply curveG_valid|now apply scalar_mod_nonzero]).
  rewrite !BigIntFacts.SetBytes_Bytes by (unfold gf.Add; apply gf_nonneg).
  split; [reflexivity|]. cbv zeta. split.
  - fold c1. rewrite Hc1. pt_eq.
  - pt_eq.
Qed.

End ServerFacts.

Section VerifyFacts.
Context `{C : Curve} `{Prim : !Primitives}.

(** The verdict of [validateProofOfFail] on a proof that parses. *)
Lemma validateProofOfFail_parsed (c : Client.t) (resp : VerifyPasswordResponse.t)
  (pf : ProofOfFail.t) (c0 c1 hs0 hc0 hc1 term1 term2 term3 term4 : Point)
  (blindA blindB : Z) :
  VerifyPasswordResponse.ProofFail resp = Some pf ->
  Parse.ProofOfFail (Some pf) = Ok (term1, term2, term3, term4, blindA, blindB) ->
  let challenge :=
    hashZ proofError [Client.serverPublicKeyBytes c; Marshal curveG; Marshal c0;
                      VerifyPasswordResponse.C1 resp;
                      ProofOfFail.Term1 pf; ProofOfFail.Term2 pf;
                      ProofOfFail.Term3 pf; ProofOfFail.Term4 pf] in
  Client.validateProofOfFail c resp c0 c1 hs0 hc0 hc1 = None <->
  (Add (Add term1 term2) (ScalarMultInt c1 challenge) =
     Add (ScalarMultInt c0 blindA) (ScalarMultInt hs0 blindB) /\
   Add term3 term4 =
     Add (ScalarMultInt (Client.serverPublicKey c) blindA)
         (ScalarMultInt curveG blindB)).
Proof.
  intros Hpf Hparse challenge. unfold Client.validateProofOfFail.
  rewrite Hpf, Hparse. fold challenge. unfold ScalarBaseMultInt.
  destruct (Equal (Add (Add term1 term2) _) _) eqn:E1; cbn [negb].
  2:{ apply Equal_false_iff in E1. split; [discriminate|tauto]. }
  destruct (Equal (Add term3 term4) _) eqn:E2; cbn [negb].
  2:{ apply Equal_false_iff in E2. split; [discriminate|tauto]. }
  apply Equal_true_iff in E1, E2. tauto.
Qed.


(** C7.  On a well-formed request (nonce of 1 to 32 bytes, [C0] a valid
    point) and a server keypair that decodes, [VerifyPassword] answers: when
    [y·HS0 = C0], [Res = true], [C1 = y·HS1] and the proof of success, no proof of
    failure; otherwise [Res = false], the [C1] and the proof of
    [proveFailure], no proof of success. *)
Theorem VerifyPassword_branches
  (serverKeypair : bytes) (kp : keypair) (Y : Point)
  (req : VerifyPasswordRequest.t) (c0 : Point) (rnd_x rnd_r rnd_a rnd_b : Z) :
  unmarshalKeypair serverKeypair = Ok kp ->
  PointUnmarshal (PublicKey kp) = Ok Y ->
  (0 < List.length (VerifyPasswordRequest.NS req) <= 32)%nat ->
  PointUnmarshal (VerifyPasswordRequest.C0 req) = Ok c0 ->
  let hs0 := hashToPoint dhs0 [VerifyPasswordRequest.NS req] in
  let hs1 := hashToPoint dhs1 [VerifyPasswordRequest.NS req] in
  (ScalarMult hs0 (PrivateKey kp) = c0 ->
   Server.VerifyPassword serverKeypair (Some req) rnd_x rnd_r rnd_a rnd_b =
   (Some {| VerifyPasswordResponse.Res := true;
            VerifyPasswordResponse.C1 := Marshal (ScalarMult hs1 (PrivateKey kp));
            VerifyPasswordResponse.ProofSuccess :=
              Some (Server.proveSuccess kp hs0 hs1 c0
                      (ScalarMult hs1 (PrivateKey kp)) rnd_x);
            VerifyPasswordResponse.ProofFail := None |}, None)) /\
  (ScalarMult hs0 (PrivateKey kp) <> c0 ->
   exists c1 pf,
     Server.proveFailure kp c0 hs0 rnd_r rnd_a rnd_b = (c1, Some pf, None) /\
     Server.VerifyPassword serverKeypair (Some req) rnd_x rnd_r rnd_a rnd_b =
     (Some {| VerifyPasswordResponse.Res := false;
              VerifyPasswordResponse.C1 := Marshal c1;
              VerifyPasswordResponse.ProofSuccess := None;
              VerifyPasswordResponse.ProofFail := Some pf |}, None)).
Proof.
  intros Hkp HY Hlen Hc0 hs0 hs1. unfold Server.VerifyPassword.
  rewrite Hkp, Hc0. fold hs0 hs1.
  assert (((32 <? List.length (VerifyPasswordRequest.NS req))%nat
           || (List.length (VerifyPasswordRequest.NS req) =? 0)%nat)%bool = false)
    as ->.
  { apply orb_false_iff. split; [apply Nat.ltb_ge|apply Nat.eqb_neq]; lia. }
  split.
  - intros E. apply Equal_true_iff in E. rewrite E. reflexivity.
  - intros E. apply Equal_false_iff in E. rewrite E.
    unfold Server.proveFailure. rewrite HY. cbv zeta.
    do 2 eexists. split; reflexivity.
Qed.



End VerifyFacts.

Section RoundTripFacts.
Context `{C : Curve} `{Prim : !Primitives}.

Lemma ScalarMultInt_invmod (p : Point) (x : Z) :
  x mod orderN <> 0 ->
  ScalarMultInt (ScalarMultInt p x) (Z.invmod x orderN) = p.
Proof.
  intros Hx. rewrite ScalarMultInt_mult.
  rewrite <- (ScalarMultInt_1 p) at 2. apply ScalarMultInt_eqm.
  rewrite Z.mul_comm, (Z.invmod_prime _ _ orderN_prime Hx).
  pose proof orderN_ge_2. symmetry. apply Z.mod_small. lia.
Qed.

Lemma NS_length_ok (ns : bytes) :
  (0 < List.length ns <= 32)%nat ->
  ((32 <? List.length ns)%nat || (List.length ns =? 0)%nat)%bool = false.
Proof.
  intros H. apply orb_false_iff. split; [apply Nat.ltb_ge|apply Nat.eqb_neq]; lia.
Qed.

(** The verifier accepts the proof of success the server makes for
    [c0 = y·hs0], [c1 = y·hs1]. *)
Lemma proveSuccess_accepted (kp : keypair) (c : Client.t) (y : Z)
  (nonce : bytes) (rnd : Z) :
  honest_keys kp c y ->
  0 < rnd < orderN ->
  let hs0 := hashToPoint dhs0 [nonce] in
  let hs1 := hashToPoint dhs1 [nonce] in
  let c0 := ScalarMultInt hs0 y in
  let c1 := ScalarMultInt hs1 y in
  Client.validateProofOfSuccess c
    (Some (Server.proveSuccess kp hs0 hs1 c0 c1 rnd)) nonce c0 c1
    (Marshal c0) (Marshal c1) = true.
Proof.
  intros (Hy & Hpriv & Hpub & HcY & HcYb) Hrnd hs0 hs1 c0 c1.
  unfold Client.validateProofOfSuccess, Parse.ProofOfSuccess, Server.proveSuccess.
  cbv zeta.
  cbn [ProofOfSuccess.Term1 ProofOfSuccess.Term2 ProofOfSuccess.Term3
       ProofOfSuccess.BlindX].
  unfold ScalarBaseMult. rewrite !ScalarMult_Bytes by lia.
  rewrite !PointUnmarshal_Marshal
    by (apply ScalarMultInt_nonzero;
        first [apply hashToPoint_valid|apply curveG_valid
              |now apply scalar_mod_nonzero]).
  rewrite BigIntFacts.SetBytes_Bytes by (unfold gf.Add; apply gf_nonneg).
  fold hs0 hs1. rewrite HcYb, HcY, Hpriv. unfold gf.MulBytes.
  rewrite BigIntFacts.SetBytes_Bytes by lia.
  set (challenge := hashZ proofOk _).
  rewrite (proj2 (Equal_true_iff
                    (Add (ScalarMultInt hs0 rnd) (ScalarMultInt c0 challenge)) _))
    by (unfold c0; pt_eq).
  rewrite (proj2 (Equal_true_iff
                    (Add (ScalarMultInt hs1 rnd) (ScalarMultInt c1 challenge)) _))
    by (unfold c1; pt_eq).
  rewrite (proj2 (Equal_true_iff
                    (Add (ScalarMultInt curveG rnd)
                         (ScalarMultInt (ScalarMultInt curveG y) challenge)) _))
    by pt_eq.
  reflexivity.
Qed.

(** What the server issues for an enrollment and what the client makes of
    it. *)
Lemma enrollment_honest (serverKeypair : bytes) (kp : keypair) (c : Client.t)
  (y : Z) (password ns nc mBuf : bytes) (rnd : Z) :
  unmarshalKeypair serverKeypair = Ok kp ->
  honest_keys kp c y ->
  0 < rnd < orderN ->
  let x := Client.clientPrivateKey c in
  let hs0 := hashToPoint dhs0 [ns] in
  let hs1 := hashToPoint dhs1 [ns] in
  let c0 := ScalarMultInt hs0 y in
  let c1 := ScalarMultInt hs1 y in
  let hc0 := hashToPoint dhc0 [nc; password] in
  let hc1 := hashToPoint dhc1 [nc; password] in
  let m := hashToPoint dm [mBuf] in
  let resp :=
    {| EnrollmentResponse.NS := ns;
       EnrollmentResponse.C0 := Marshal c0;
       EnrollmentResponse.C1 := Marshal c1;
       EnrollmentResponse.Proof := Some (Server.proveSuccess kp hs0 hs1 c0 c1 rnd) |} in
  Server.GetEnrollment serverKeypair (Ok ns) rnd = (Some resp, None) /\
  Client.EnrollAccount c password (Some resp) (Ok nc) (Ok mBuf) =
    Returns
      (Some {| EnrollmentRecord.NS := ns;
               EnrollmentRecord.NC := nc;
               EnrollmentRecord.T0 := Marshal (Add c0 (ScalarMultInt hc0 x));
               EnrollmentRecord.T1 :=
                 Marshal (Add (Add c1 (ScalarMultInt hc1 x)) (ScalarMultInt m x)) |},
       Some (derivedKey m), None).
Proof.
  intros Hkp Hkeys Hrnd x hs0 hs1 c0 c1 hc0 hc1 m resp.
  pose proof Hkeys as (Hy & Hpriv & _).
  assert (c0 <> Inf /\ c1 <> Inf) as [Hc0 Hc1]
    by (split; apply ScalarMultInt_nonzero;
        first [apply hashToPoint_valid|now apply scalar_mod_nonzero]).
  split.
  - unfold Server.GetEnrollment, Server.eval. rewrite Hkp. cbv zeta.
    rewrite Hpriv, !ScalarMult_Bytes by lia. reflexivity.
  - unfold Client.EnrollAccount, resp.
    cbn [EnrollmentResponse.NS EnrollmentResponse.C0 EnrollmentResponse.C1
         EnrollmentResponse.Proof].
    rewrite !PointUnmarshal_Marshal by assumption.
    pose proof (proveSuccess_accepted kp c y ns rnd Hkeys Hrnd) as Hp.
    cbv zeta in Hp. fold hs0 hs1 in Hp. fold c0 c1 in Hp. rewrite Hp.
    cbn [negb]. rewrite hkdfRead_32. reflexivity.
Qed.

(** Verification of the enrolled password: the request carries [y·hs0], the
    server answers [Res = true] with a proof the client accepts, and the
    client recovers the point [m] the record was blinded with. *)
Lemma verification_honest (serverKeypair : bytes) (kp : keypair) (c : Client.t)
  (y : Z) (password : bytes) (rc : EnrollmentRecord.t) (m : Point)
  (rnd_x rnd_r rnd_a rnd_b : Z) :
  unmarshalKeypair serverKeypair = Ok kp ->
  honest_keys kp c y ->
  0 < rnd_x < orderN ->
  let x := Client.clientPrivateKey c in
  let hs0 := hashToPoint dhs0 [EnrollmentRecord.NS rc] in
  let hs1 := hashToPoint dhs1 [EnrollmentRecord.NS rc] in
  let c0 := ScalarMultInt hs0 y in
  let c1 := ScalarMultInt hs1 y in
  let hc0 := hashToPoint dhc0 [EnrollmentRecord.NC rc; password] in
  let hc1 := hashToPoint dhc1 [EnrollmentRecord.NC rc; password] in
  let t0 := Add c0 (ScalarMultInt hc0 x) in
  let t1 := Add (Add c1 (ScalarMultInt hc1 x)) (ScalarMultInt m x) in
  x mod orderN <> 0 ->
  (0 < List.length (EnrollmentRecord.NS rc) <= 32)%nat ->
  (0 < List.length (EnrollmentRecord.NC rc))%nat ->
  EnrollmentRecord.T0 rc = Marshal t0 ->
  EnrollmentRecord.T1 rc = Marshal t1 ->
  t0 <> Inf -> t1 <> Inf ->
  let req :=
    {| VerifyPasswordRequest.C0 := Marshal c0;
       VerifyPasswordRequest.NS := EnrollmentRecord.NS rc |} in
  let vresp :=
    {| VerifyPasswordResponse.Res := true;
       VerifyPasswordResponse.C1 := Marshal c1;
       VerifyPasswordResponse.ProofSuccess :=
         Some (Server.proveSuccess kp hs0 hs1 c0 c1 rnd_x);
       VerifyPasswordResponse.ProofFail := None |} in
  Client.CreateVerifyPasswordRequest c password (Some rc) = (Some req, None) /\
  Server.VerifyPassword serverKeypair (Some req) rnd_x rnd_r rnd_a rnd_b =
    (Some vresp, None) /\
  Client.validateProofOfSuccess c (VerifyPasswordResponse.ProofSuccess vresp)
    (EnrollmentRecord.NS rc) c0 c1 (Marshal c0) (VerifyPasswordResponse.C1 vresp)
    = true /\
  Client.CheckResponseAndDecrypt c password (Some rc) (Some vresp) =
    Returns (Some (derivedKey m), None).
Proof.
  intros Hkp Hkeys Hrnd x hs0 hs1 c0 c1 hc0 hc1 t0 t1 Hx Hns Hnc HT0 HT1 Ht0 Ht1
         req vresp.
  pose proof Hkeys as (Hy & Hpriv & _).
  assert (c0 <> Inf /\ c1 <> Inf) as [Hc0 Hc1]
    by (split; apply ScalarMultInt_nonzero;
        first [apply hashToPoint_valid|now apply scalar_mod_nonzero]).
  assert (Add t0 (ScalarMultInt hc0 (gf.Neg x)) = c0) as Hback
    by (unfold t0; pt_eq).
  assert (Client.validateProofOfSuccess c
            (Some (Server.proveSuccess kp hs0 hs1 c0 c1 rnd_x))
            (EnrollmentRecord.NS rc) c0 c1 (Marshal c0) (Marshal c1) = true)
    as Hproof by exact (proveSuccess_accepted kp c y _ rnd_x Hkeys Hrnd).
  split; [|split; [|split]].
  - unfold Client.CreateVerifyPasswordRequest.
    assert (((List.length (EnrollmentRecord.NC rc) =? 0)%nat
             || (List.length (EnrollmentRecord.NS rc) =? 0)%nat
             || (List.length (EnrollmentRecord.T0 rc) =? 0)%nat)%bool = false) as ->.
    { rewrite HT0, Marshal_length.
      repeat (apply orb_false_iff; split); apply Nat.eqb_neq; lia. }
    rewrite HT0, (PointUnmarshal_Marshal _ Ht0). fold x hc0.
    rewrite Hback. reflexivity.
  - unfold Server.VerifyPassword, req. rewrite Hkp.
    cbn [VerifyPasswordRequest.NS VerifyPasswordRequest.C0].
    rewrite (NS_length_ok _ Hns), (PointUnmarshal_Marshal _ Hc0).
    fold hs0 hs1. rewrite Hpriv, !ScalarMult_Bytes by lia.
    fold c0 c1. rewrite Equal_refl. reflexivity.
  - exact Hproof.
  - unfold Client.CheckResponseAndDecrypt, Parse.EnrollmentRecord, vresp.
    cbn [VerifyPasswordResponse.Res VerifyPasswordResponse.C1
         VerifyPasswordResponse.ProofSuccess].
    rewrite HT0, HT1, (PointUnmarshal_Marshal _ Ht0), (PointUnmarshal_Marshal _ Ht1).
    rewrite (PointUnmarshal_Marshal _ Hc1).
    fold x hc0 hc1. rewrite Hback. fold hs0 hs1 in Hproof. rewrite Hproof.
    cbn [negb]. unfold gf.Inv.
    destruct (Z.eqb_spec (x mod orderN) 0) as [E|_]; [contradiction|].
    assert (Add (Add t1 (Neg c1)) (ScalarMultInt hc1 (gf.Neg x)) =
            ScalarMultInt m x) as -> by (unfold t1; pt_eq).
    rewrite (ScalarMultInt_invmod m x Hx), hkdfRead_32. reflexivity.
Qed.

End RoundTripFacts.

Section RotationFacts.
Context `{C : Curve} `{Prim : !Primitives}.

Lemma mul_mod_nonzero (x a : Z) :
  x mod orderN <> 0 -> a mod orderN <> 0 -> (x * a) mod orderN <> 0.
Proof.
  pose proof orderN_ge_2. intros Hx Ha E.
  apply Z.mod_divide in E; [|lia].
  apply (Z.divide_prime_mul _ _ _ orderN_prime) in E.
  destruct E as [E|E]; apply Z.mod_divide in E; lia.
Qed.

(** C1, as the code has it.  For a generated server keypair with scalar in
    [1, n), a client key that is non-zero modulo [n], proof blinds in [1, n),
    32-byte nonces and any password, as long as the two points of the
    enrollment record are not the point at infinity: enrollment succeeds,
    the verify request is answered with [Res = true] and a proof of success
    the client accepts, and [CheckResponseAndDecrypt] returns the key that
    [EnrollAccount] returned. *)
Theorem clean_path_round_trip
  (y : Z) (serverKeypair pub clientKey : bytes) (c : Client.t)
  (password ns nc mBuf : bytes) (rnd_e rnd_x rnd_r rnd_a rnd_b : Z) :
  0 < y < orderN ->
  Server.GenerateServerKeypair y = Ok serverKeypair ->
  Server.GetPublicKey serverKeypair = (Some pub, None) ->
  Client.NewClient clientKey pub = (Some c, None) ->
  BigInt.SetBytes clientKey mod orderN <> 0 ->
  0 < rnd_e < orderN -> 0 < rnd_x < orderN ->
  List.length ns = 32%nat -> List.length nc = 32%nat ->
  let x := BigInt.SetBytes clientKey in
  let hs0 := hashToPoint dhs0 [ns] in
  let hs1 := hashToPoint dhs1 [ns] in
  let c0 := ScalarMultInt hs0 y in
  let c1 := ScalarMultInt hs1 y in
  let hc0 := hashToPoint dhc0 [nc; password] in
  let hc1 := hashToPoint dhc1 [nc; password] in
  let m := hashToPoint dm [mBuf] in
  Add c0 (ScalarMultInt hc0 x) <> Inf ->
  Add (Add c1 (ScalarMultInt hc1 x)) (ScalarMultInt m x) <> Inf ->
  exists resp rec key req vresp,
    Server.GetEnrollment serverKeypair (Ok ns) rnd_e = (Some resp, None) /\
    Client.EnrollAccount c password (Some resp) (Ok nc) (Ok mBuf) =
      Returns (Some rec, Some key, None) /\
    Client.CreateVerifyPasswordRequest c password (Some rec) = (Some req, None) /\
    Server.VerifyPassword serverKeypair (Some req) rnd_x rnd_r rnd_a rnd_b =
      (Some vresp, None) /\
    VerifyPasswordResponse.Res vresp = true /\
    Client.validateProofOfSuccess c (VerifyPasswordResponse.ProofSuccess vresp)
      (EnrollmentRecord.NS rec) c0 c1 (Marshal c0)
      (VerifyPasswordResponse.C1 vresp) = true /\
    Client.CheckResponseAndDecrypt c password (Some rec) (Some vresp) =
      Returns (Some key, None).
Proof.
  intros Hy Hgen Hpub Hnew Hx Hre Hrx Hns Hnc x hs0 hs1 c0 c1 hc0 hc1 m Ht0 Ht1.
  destruct (honest_keys_generated _ _ _ _ _ Hy Hgen Hpub Hnew)
    as (kp & Hkp & Hkeys & Hcx).
  destruct (enrollment_honest serverKeypair kp c y password ns nc mBuf rnd_e
              Hkp Hkeys Hre) as [Hge Hen].
  cbv zeta in Hge, Hen. rewrite Hcx in Hen.
  fold x hs0 hs1 hc0 hc1 m in Hge, Hen. fold c0 c1 in Hge, Hen.
  match type of Hen with
  | _ = Returns (Some ?r, _, _) => set (rec := r) in *
  end.
  pose proof (verification_honest serverKeypair kp c y password rec m
                rnd_x rnd_r rnd_a rnd_b Hkp Hkeys Hrx) as Hv.
  cbv zeta in Hv. rewrite Hcx in Hv.
  cbn [rec EnrollmentRecord.NS EnrollmentRecord.NC EnrollmentRecord.T0
       EnrollmentRecord.T1] in Hv.
  fold x hs0 hs1 hc0 hc1 in Hv. fold c0 c1 in Hv. fold rec in Hv.
  specialize (Hv Hx ltac:(lia) ltac:(lia) eq_refl eq_refl Ht0 Ht1).
  destruct Hv as (Hreq & Hver & Hok & Hdec).
  do 5 eexists.
  split; [exact Hge|]. split; [exact Hen|]. split; [exact Hreq|].
  split; [exact Hver|]. split; [reflexivity|]. split; [exact Hok|exact Hdec].
Qed.


(** Server rotation, client rotation and record update on honest keys: the
    new keypair and the rotated client are honest for [y' = y·a + b], the
    rotated client key is [x·a], and the updated record is the enrollment
    record of the same [m] under the new keys. *)
Lemma rotation_honest (serverKeypair serverKeypair' : bytes) (kp : keypair)
  (c : Client.t) (y : Z) (token : UpdateToken.t) (rnd_a rnd_b : Z)
  (rc : EnrollmentRecord.t) (password : bytes) (m : Point) :
  unmarshalKeypair serverKeypair = Ok kp ->
  honest_keys kp c y ->
  0 < rnd_a < orderN -> 0 < rnd_b < orderN ->
  Server.Rotate serverKeypair rnd_a rnd_b = (Some token, Some serverKeypair', None) ->
  let y' := gf.Add (gf.Mul y rnd_a) rnd_b in
  let x := Client.clientPrivateKey c in
  let x' := gf.Mul x rnd_a in
  let hs0 := hashToPoint dhs0 [EnrollmentRecord.NS rc] in
  let hs1 := hashToPoint dhs1 [EnrollmentRecord.NS rc] in
  let hc0 := hashToPoint dhc0 [EnrollmentRecord.NC rc; password] in
  let hc1 := hashToPoint dhc1 [EnrollmentRecord.NC rc; password] in
  let t0 := Add (ScalarMultInt hs0 y) (ScalarMultInt hc0 x) in
  let t1 := Add (Add (ScalarMultInt hs1 y) (ScalarMultInt hc1 x))
                (ScalarMultInt m x) in
  y' <> 0 ->
  EnrollmentRecord.T0 rc = Marshal t0 ->
  EnrollmentRecord.T1 rc = Marshal t1 ->
  t0 <> Inf -> t1 <> Inf ->
  exists kp' c' rc',
    unmarshalKeypair serverKeypair' = Ok kp' /\
    honest_keys kp' c' y' /\
    Client.Rotate c (Some token) = (c', None) /\
    Client.clientPrivateKey c' = x' /\
    Client.UpdateRecord (Some rc) (Some token) = (Some rc', None) /\
    EnrollmentRecord.NS rc' = EnrollmentRecord.NS rc /\
    EnrollmentRecord.NC rc' = EnrollmentRecord.NC rc /\
    EnrollmentRecord.T0 rc' =
      Marshal (Add (ScalarMultInt t0 rnd_a) (ScalarMultInt hs0 rnd_b)) /\
    EnrollmentRecord.T1 rc' =
      Marshal (Add (ScalarMultInt t1 rnd_a) (ScalarMultInt hs1 rnd_b)) /\
    Add (ScalarMultInt t0 rnd_a) (ScalarMultInt hs0 rnd_b) =
      Add (ScalarMultInt hs0 y') (ScalarMultInt hc0 x') /\
    Add (ScalarMultInt t1 rnd_a) (ScalarMultInt hs1 rnd_b) =
      Add (Add (ScalarMultInt hs1 y') (ScalarMultInt hc1 x'))
          (ScalarMultInt m x').
Proof.
  intros Hkp (Hy & Hpriv & Hpub & HcY & HcYb) Ha Hb Hrot
         y' x x' hs0 hs1 hc0 hc1 t0 t1 Hy' HT0 HT1 Ht0 Ht1.
  assert (0 < y' < orderN) as Hy'r.
  { pose proof (gf_nonneg (gf.Mul y rnd_a + rnd_b)) as Hlo.
    pose proof orderN_ge_2 as Hn.
    assert (0 < orderN) as Hpos by lia.
    pose proof (Z.mod_pos_bound (gf.Mul y rnd_a + rnd_b) orderN Hpos) as Hhi.
    unfold y', gf.Add in *. lia. }
  unfold Server.Rotate in Hrot. rewrite Hkp in Hrot. cbv zeta in Hrot.
  rewrite Hpriv in Hrot. unfold gf.MulBytes in Hrot.
  rewrite BigIntFacts.SetBytes_Bytes in Hrot by lia. fold y' in Hrot.
  destruct (marshalKeypair _ _) as [kpb|e] eqn:Hm; [|discriminate].
  injection Hrot as <- <-.
  apply unmarshalKeypair_marshalKeypair in Hm.
  unfold ScalarBaseMult in Hm. rewrite ScalarMult_Bytes in Hm by lia.
  assert (Add (ScalarMultInt (Client.serverPublicKey c) rnd_a)
              (ScalarBaseMultInt rnd_b) = ScalarMultInt curveG y') as HY'
    by (rewrite HcY; unfold y'; pt_eq).
  set (pub' := Add (ScalarMultInt (Client.serverPublicKey c) rnd_a)
                   (ScalarBaseMultInt rnd_b)) in *.
  eexists.
  exists {| Client.clientPrivateKey := x';
            Client.clientPrivateKeyBytes := BigInt.Bytes x';
            Client.serverPublicKey := pub';
            Client.serverPublicKeyBytes := Marshal pub' |}.
  exists {| EnrollmentRecord.T0 :=
              Marshal (Add (ScalarMultInt t0 rnd_a) (ScalarMultInt hs0 rnd_b));
            EnrollmentRecord.T1 :=
              Marshal (Add (ScalarMultInt t1 rnd_a) (ScalarMultInt hs1 rnd_b));
            EnrollmentRecord.NS := EnrollmentRecord.NS rc;
            EnrollmentRecord.NC := EnrollmentRecord.NC rc |}.
  split; [exact Hm|].
  split.
  { unfold honest_keys.
    cbn [PublicKey PrivateKey Client.serverPublicKey Client.serverPublicKeyBytes].
    rewrite HY'. repeat split; lia. }
  split.
  { unfold Client.Rotate, Parse.UpdateToken.
    cbn [UpdateToken.A UpdateToken.B].
    rewrite !BigIntFacts.SetBytes_Bytes by lia. reflexivity. }
  split; [reflexivity|].
  split.
  { unfold Client.UpdateRecord, Parse.UpdateToken, Parse.EnrollmentRecord.
    cbn [UpdateToken.A UpdateToken.B].
    rewrite !BigIntFacts.SetBytes_Bytes by lia.
    rewrite HT0, HT1, (PointUnmarshal_Marshal _ Ht0), (PointUnmarshal_Marshal _ Ht1).
    reflexivity. }
  cbn [EnrollmentRecord.NS EnrollmentRecord.NC EnrollmentRecord.T0
       EnrollmentRecord.T1].
  repeat (split; [reflexivity|]).
  split; unfold t0, t1, y', x'; pt_eq.
Qed.

(** C4, as the code has it.  Enroll under a generated keypair, rotate the
    server with draws [a], [b] in [1, n) such that the new private key
    [y·a + b] is not zero, rotate the client and update the record with the
    token.  As long as the record's points, before and after the update, are
    not the point at infinity, verifying the original password under the new
    keypair yields [Res = true] and the key that verification under the old
    keypair yields, which is the key returned by enrollment. *)
Theorem rotation_commutes_with_verify
  (y : Z) (serverKeypair pub clientKey : bytes) (c : Client.t)
  (password ns nc mBuf : bytes) (rnd_e rnd_x rnd_r rnd_a rnd_b : Z)
  (rot_a rot_b : Z) (token : UpdateToken.t) (serverKeypair' : bytes)
  (rnd_x' rnd_r' rnd_a' rnd_b' : Z) :
  0 < y < orderN ->
  Server.GenerateServerKeypair y = Ok serverKeypair ->
  Server.GetPublicKey serverKeypair = (Some pub, None) ->
  Client.NewClient clientKey pub = (Some c, None) ->
  BigInt.SetBytes clientKey mod orderN <> 0 ->
  0 < rnd_e < orderN -> 0 < rnd_x < orderN ->
  List.length ns = 32%nat -> List.length nc = 32%nat ->
  0 < rot_a < orderN -> 0 < rot_b < orderN ->
  Server.Rotate serverKeypair rot_a rot_b = (Some token, Some serverKeypair', None) ->
  gf.Add (gf.Mul y rot_a) rot_b <> 0 ->
  0 < rnd_x' < orderN ->
  let x := BigInt.SetBytes clientKey in
  let hs0 := hashToPoint dhs0 [ns] in
  let hs1 := hashToPoint dhs1 [ns] in
  let c0 := ScalarMultInt hs0 y in
  let c1 := ScalarMultInt hs1 y in
  let hc0 := hashToPoint dhc0 [nc; password] in
  let hc1 := hashToPoint dhc1 [nc; password] in
  let m := hashToPoint dm [mBuf] in
  let t0 := Add c0 (ScalarMultInt hc0 x) in
  let t1 := Add (Add c1 (ScalarMultInt hc1 x)) (ScalarMultInt m x) in
  t0 <> Inf -> t1 <> Inf ->
  Add (ScalarMultInt t0 rot_a) (ScalarMultInt hs0 rot_b) <> Inf ->
  Add (ScalarMultInt t1 rot_a) (ScalarMultInt hs1 rot_b) <> Inf ->
  exists resp rec key req vresp c' rec' req' vresp',
    Server.GetEnrollment serverKeypair (Ok ns) rnd_e = (Some resp, None) /\
    Client.EnrollAccount c password (Some resp) (Ok nc) (Ok mBuf) =
      Returns (Some rec, Some key, None) /\
    Client.CreateVerifyPasswordRequest c password (Some rec) = (Some req, None) /\
    Server.VerifyPassword serverKeypair (Some req) rnd_x rnd_r rnd_a rnd_b =
      (Some vresp, None) /\
    Client.CheckResponseAndDecrypt c password (Some rec) (Some vresp) =
      Returns (Some key, None) /\
    Client.Rotate c (Some token) = (c', None) /\
    Client.UpdateRecord (Some rec) (Some token) = (Some rec', None) /\
    Client.CreateVerifyPasswordRequest c' password (Some rec') = (Some req', None) /\
    Server.VerifyPassword serverKeypair' (Some req') rnd_x' rnd_r' rnd_a' rnd_b' =
      (Some vresp', None) /\
    VerifyPasswordResponse.Res vresp' = true /\
    Client.CheckResponseAndDecrypt c' password (Some rec') (Some vresp') =
      Returns (Some key, None).
Proof.
  intros Hy Hgen Hpub Hnew Hx Hre Hrx Hns Hnc Hra Hrb Hrot Hy' Hrx'
         x hs0 hs1 c0 c1 hc0 hc1 m t0 t1 Ht0 Ht1 Ht0' Ht1'.
  destruct (honest_keys_generated _ _ _ _ _ Hy Hgen Hpub Hnew)
    as (kp & Hkp & Hkeys & Hcx).
  destruct (enrollment_honest serverKeypair kp c y password ns nc mBuf rnd_e
              Hkp Hkeys Hre) as [Hge Hen].
  cbv zeta in Hge, Hen. rewrite Hcx in Hen.
  fold x hs0 hs1 hc0 hc1 m in Hge, Hen. fold c0 c1 in Hge, Hen.
  fold t0 t1 in Hen.
  match type of Hen with
  | _ = Returns (Some ?r, _, _) => set (rec := r) in *
  end.
  (* verification under the old keypair *)
  pose proof (verification_honest serverKeypair kp c y password rec m
                rnd_x rnd_r rnd_a rnd_b Hkp Hkeys Hrx) as Hv.
  cbv zeta in Hv. rewrite Hcx in Hv.
  cbn [rec EnrollmentRecord.NS EnrollmentRecord.NC EnrollmentRecord.T0
       EnrollmentRecord.T1] in Hv.
  fold x hs0 hs1 hc0 hc1 in Hv. fold c0 c1 in Hv. fold t0 t1 in Hv. fold rec in Hv.
  specialize (Hv Hx ltac:(lia) ltac:(lia) eq_refl eq_refl Ht0 Ht1).
  destruct Hv as (Hreq & Hver & _ & Hdec).
  (* rotation *)
  pose proof (rotation_honest serverKeypair serverKeypair' kp c y token
                rot_a rot_b rec password m Hkp Hkeys Hra Hrb Hrot) as Hr.
  cbv zeta in Hr. rewrite Hcx in Hr.
  cbn [rec EnrollmentRecord.NS EnrollmentRecord.NC EnrollmentRecord.T0
       EnrollmentRecord.T1] in Hr.
  fold x hs0 hs1 hc0 hc1 in Hr. fold c0 c1 in Hr. fold t0 t1 in Hr. fold rec in Hr.
  specialize (Hr Hy' eq_refl eq_refl Ht0 Ht1).
  destruct Hr as (kp' & c' & rec' & Hkp' & Hkeys' & Hcrot & Hcx' & Hupd
                  & HNS & HNC & HT0 & HT1 & Heq0 & Heq1).
  (* verification under the new keypair *)
  pose proof Hkeys' as (Hy'r & _).
  pose proof (verification_honest serverKeypair' kp' c'
                (gf.Add (gf.Mul y rot_a) rot_b) password rec' m
                rnd_x' rnd_r' rnd_a' rnd_b' Hkp' Hkeys' Hrx') as Hv.
  cbv zeta in Hv. rewrite Hcx', HNS, HNC, HT0, HT1, Heq0, Heq1 in Hv.
  cbn [rec EnrollmentRecord.NS EnrollmentRecord.NC] in Hv.
  fold hs0 hs1 hc0 hc1 in Hv.
  assert (gf.Mul x rot_a mod orderN <> 0) as Hx'.
  { unfold gf.Mul. pose proof orderN_ge_2. rewrite Z.mod_mod by lia.
    apply mul_mod_nonzero; [exact Hx|now apply scalar_mod_nonzero]. }
  rewrite Heq0 in Ht0'. rewrite Heq1 in Ht1'.
  specialize (Hv Hx' ltac:(lia) ltac:(lia) eq_refl eq_refl Ht0' Ht1').
  destruct Hv as (Hreq' & Hver' & _ & Hdec').
  do 9 eexists.
  split; [exact Hge|]. split; [exact Hen|]. split; [exact Hreq|].
  split; [exact Hver|]. split; [exact Hdec|]. split; [exact Hcrot|].
  split; [exact Hupd|]. split; [exact Hreq'|]. split; [exact Hver'|].
  split; [reflexivity|exact Hdec'].
Qed.

End RotationFacts.

(** ** [HashZ]: the loop retries *)

Lemma HashZ_loop_first (kdf : nat -> bytes) (k : nat) :
  forall (i fuel : nat),
    (forall j, (i <= j < i + k)%nat -> P256_N <= BigInt.SetBytes (kdf j)) ->
    BigInt.SetBytes (kdf (i + k)%nat) < P256_N ->
    (k < fuel)%nat ->
    UtilsHash.HashZ_loop fuel kdf i None = Some (kdf (i + k)%nat) /\
    Unnamed0Hash.HashZ_loop fuel kdf i None =
      Some (BigInt.SetBytes (kdf (i + k)%nat)).
Proof.
  induction k as [|k IH]; intros i fuel Hout Hin Hfuel.
  - destruct fuel as [|fuel]; [lia|].
    rewrite Nat.add_0_r in *.
    cbn [UtilsHash.HashZ_loop Unnamed0Hash.HashZ_loop]. rewrite Cmp_ge_0.
    destruct (Z.leb_spec P256_N (BigInt.SetBytes (kdf i))); [lia|].
    destruct fuel; split; reflexivity.
  - destruct fuel as [|fuel]; [lia|].
    cbn [UtilsHash.HashZ_loop Unnamed0Hash.HashZ_loop]. rewrite Cmp_ge_0.
    destruct (Z.leb_spec P256_N (BigInt.SetBytes (kdf i))) as [_|Hlt].
    + replace (i + S k)%nat with (S i + k)%nat in * by lia.
      apply IH; [intros j Hj; apply Hout; lia|exact Hin|lia].
    + specialize (Hout i ltac:(lia)). lia.
Qed.

Lemma HashZ_loop_inv (kdf : nat -> bytes) :
  forall (fuel i : nat) (z : bytes),
    UtilsHash.HashZ_loop fuel kdf i None = Some z ->
    exists k, (k < fuel)%nat /\ z = kdf (i + k)%nat /\
      BigInt.SetBytes z < P256_N /\
      forall j, (i <= j < i + k)%nat -> P256_N <= BigInt.SetBytes (kdf j).
Proof.
  induction fuel as [|fuel IH]; intros i z H; [discriminate|].
  cbn [UtilsHash.HashZ_loop] in H. rewrite Cmp_ge_0 in H.
  destruct (Z.leb_spec P256_N (BigInt.SetBytes (kdf i))) as [Hge|Hlt].
  - destruct (IH _ _ H) as (k & Hk & -> & Hz & Hout).
    exists (S k). replace (i + S k)%nat with (S i + k)%nat by lia.
    repeat split; [lia|exact Hz|].
    intros j Hj. destruct (Nat.eq_dec j i) as [->|]; [exact Hge|apply Hout; lia].
  - assert (z = kdf i) as -> by (destruct fuel; cbn in H; congruence).
    exists O. rewrite Nat.add_0_r. repeat split; [lia|exact Hlt|intros j Hj; lia].
Qed.

(** X1.  [HashZ] returns the first block of the key-derivation stream that is
    below the group order: blocks at or above the order are skipped by a
    further read, in both variants of the function. *)
Theorem HashZ_returns_first_in_range
  (hkdfSha256 : bytes -> bytes -> bytes -> nat -> bytes) (data : bytes)
  (k fuel : nat) :
  let kdf := hkdfSha256 data data (list_byte_of_string "HashZ") in
  (forall i, (i < k)%nat -> P256_N <= BigInt.SetBytes (kdf i)) ->
  BigInt.SetBytes (kdf k) < P256_N ->
  (k < fuel)%nat ->
  UtilsHash.HashZ hkdfSha256 fuel data = Some (kdf k) /\
  Unnamed0Hash.HashZ hkdfSha256 fuel data = Some (BigInt.SetBytes (kdf k)).
Proof.
  intros kdf Hout Hin Hfuel.
  apply (HashZ_loop_first kdf k O fuel); [intros j Hj; apply Hout; lia|exact Hin|exact Hfuel].
Qed.

(** X2.  Whatever the stream and the fuel, a value [HashZ] returns is one of the
    blocks read, it is below the group order, and every block read before it
    was at or above the order. *)
Theorem HashZ_result_in_range
  (hkdfSha256 : bytes -> bytes -> bytes -> nat -> bytes) (data z : bytes)
  (fuel : nat) :
  let kdf := hkdfSha256 data data (list_byte_of_string "HashZ") in
  UtilsHash.HashZ hkdfSha256 fuel data = Some z ->
  0 <= BigInt.SetBytes z < P256_N /\
  exists k, (k < fuel)%nat /\ z = kdf k /\
    forall i, (i < k)%nat -> P256_N <= BigInt.SetBytes (kdf i).
Proof.
  intros kdf H. destruct (HashZ_loop_inv kdf fuel O z H) as (k & Hk & Hz & Hlt & Hout).
  split; [split; [apply BigIntFacts.SetBytes_nonneg|exact Hlt]|].
  exists k. repeat split; [exact Hk|exact Hz|intros i Hi; apply Hout; lia].
Qed.

(** X3.  When every block of the stream is at or above the order, [HashZ] keeps
    reading: no amount of fuel gives a result. *)
Theorem HashZ_never_returns_out_of_range
  (hkdfSha256 : bytes -> bytes -> bytes -> nat -> bytes) (data : bytes) :
  let kdf := hkdfSha256 data data (list_byte_of_string "HashZ") in
  (forall i, P256_N <= BigInt.SetBytes (kdf i)) ->
  forall fuel, UtilsHash.HashZ hkdfSha256 fuel data = None.
Proof.
  intros kdf Hout fuel.
  destruct (UtilsHash.HashZ hkdfSha256 fuel data) as [z|] eqn:E; [|reflexivity].
  destruct (HashZ_loop_inv kdf fuel O z E) as (k & _ & -> & Hlt & _).
  specialize (Hout (0 + k)%nat). lia.
Qed.

Section ApiFacts.
Context `{C : Curve} `{Prim : !Primitives}.

(** X4.  Every entry point of the server returns either its result or an error,
    never both and never neither; [Rotate] returns the token and the new
    keypair together. *)
Theorem server_returns_result_xor_error
  (serverKeypair : bytes) (rnd_ns : result bytes)
  (req : option VerifyPasswordRequest.t) (rnd rnd_x rnd_r rnd_a rnd_b : Z) :
  result_xor_error (Server.GetEnrollment serverKeypair rnd_ns rnd) /\
  result_xor_error (Server.GetPublicKey serverKeypair) /\
  result_xor_error
    (Server.VerifyPassword serverKeypair req rnd_x rnd_r rnd_a rnd_b) /\
  results_xor_error (Server.Rotate serverKeypair rnd_a rnd_b).
Proof.
  unfold Server.GetEnrollment, Server.GetPublicKey, Server.VerifyPassword,
    Server.Rotate, Server.proveFailure, Server.eval.
  destruct (unmarshalKeypair serverKeypair) as [kp|e]; cbn;
    [|repeat split; exact I].
  repeat split.
  - destruct rnd_ns; exact I.
  - destruct req as [r|]; [|exact I].
    destruct (_ || _)%bool; [exact I|].
    destruct (PointUnmarshal (VerifyPasswordRequest.C0 r)); [|exact I].
    destruct (Equal _ _); [exact I|].
    destruct (PointUnmarshal (PublicKey kp)); exact I.
  - destruct (marshalKeypair _ _); exact I.
Qed.

(** X5.  The client functions that return a value with an error return exactly
    one of the two: [NewClient], [CreateVerifyPasswordRequest],
    [UpdateRecord] and [RotateClientKeys]. *)
Theorem client_returns_result_xor_error
  (c : Client.t) (password privateKey serverPublicKey : bytes)
  (rec : option EnrollmentRecord.t) (token : option UpdateToken.t) :
  result_xor_error (Client.NewClient privateKey serverPublicKey) /\
  result_xor_error (Client.CreateVerifyPasswordRequest c password rec) /\
  result_xor_error (Client.UpdateRecord rec token) /\
  results_xor_error (ClientKeys.RotateClientKeys privateKey serverPublicKey token).
Proof.
  unfold Client.NewClient, Client.CreateVerifyPasswordRequest,
    Client.UpdateRecord, ClientKeys.RotateClientKeys, Parse.UpdateToken,
    Parse.EnrollmentRecord.
  repeat split.
  - destruct (_ =? _)%nat; [exact I|]. destruct (PointUnmarshal _); exact I.
  - destruct rec as [r|]; [|exact I].
    destruct (_ || _)%bool; [exact I|]. destruct (PointUnmarshal _); exact I.
  - destruct token; [|exact I]. destruct rec as [r|]; [|exact I].
    destruct (PointUnmarshal (EnrollmentRecord.T0 r)); [|exact I].
    destruct (PointUnmarshal (EnrollmentRecord.T1 r)); exact I.
  - destruct token; [|exact I]. destruct (PointUnmarshal _); [|exact I].
    destruct (_ =? _)%nat; exact I.
Qed.

End ApiFacts.

Section ClientGuards.
Context `{C : Curve} `{Prim : !Primitives}.

(** X6.  [CheckResponseAndDecrypt] hands out a key only for a response with
    [Res = true] whose proof of success verifies against the request point
    recomputed from the record; the key is then derived from the point
    [x⁻¹·(T1 − C1 − x·HC1)] and the error is nil. *)
Theorem key_requires_valid_proof_of_success
  (c : Client.t) (password : bytes) (rec : option EnrollmentRecord.t)
  (resp : option VerifyPasswordResponse.t) (key : bytes) (err : option error) :
  Client.CheckResponseAndDecrypt c password rec resp = Returns (Some key, err) ->
  exists rc r t0 t1 c1 inv,
    rec = Some rc /\ resp = Some r /\
    VerifyPasswordResponse.Res r = true /\
    Parse.EnrollmentRecord rec = Ok (t0, t1) /\
    PointUnmarshal (VerifyPasswordResponse.C1 r) = Ok c1 /\
    let x := Client.clientPrivateKey c in
    let hc0 := hashToPoint dhc0 [EnrollmentRecord.NC rc; password] in
    let hc1 := hashToPoint dhc1 [EnrollmentRecord.NC rc; password] in
    let c0 := Add t0 (ScalarMultInt hc0 (gf.Neg x)) in
    Client.validateProofOfSuccess c (VerifyPasswordResponse.ProofSuccess r)
      (EnrollmentRecord.NS rc) c0 c1 (Marshal c0)
      (VerifyPasswordResponse.C1 r) = true /\
    gf.Inv x = Some inv /\
    key = derivedKey
            (ScalarMultInt (Add (Add t1 (Neg c1)) (ScalarMultInt hc1 (gf.Neg x)))
               inv) /\
    err = None.
Proof.
  unfold Client.CheckResponseAndDecrypt. intros H.
  destruct resp as [r|]; [|discriminate].
  destruct (Parse.EnrollmentRecord rec) as [[t0 t1]|e] eqn:Hrec; [|discriminate].
  destruct rec as [rc|]; [|discriminate].
  destruct (PointUnmarshal (VerifyPasswordResponse.C1 r)) as [c1|e] eqn:Hc1;
    [|discriminate].
  cbv zeta in H.
  destruct (VerifyPasswordResponse.Res r) eqn:Hres; [|discriminate].
  destruct (Client.validateProofOfSuccess _ _ _ _ _ _ _) eqn:Hproof;
    cbn [negb] in H; [|discriminate].
  destruct (gf.Inv (Client.clientPrivateKey c)) as [inv|] eqn:Hinv; [|discriminate].
  rewrite hkdfRead_32 in H. injection H as <- <-.
  exists rc, r, t0, t1, c1, inv. cbv zeta.
  repeat split; try reflexivity; assumption.
Qed.

(** X7.  [EnrollAccount] returns a record only for a response whose two points
    decode and whose proof of success verifies.  The record then keeps the
    server nonce, holds the client nonce drawn, [T0 = C0 + x·HC0] and
    [T1 = C1 + x·HC1 + x·M]; the key is derived from [M] and the error is
    nil. *)
Theorem EnrollAccount_record_shape
  (c : Client.t) (password : bytes) (resp : option EnrollmentResponse.t)
  (rnd_nc rnd_mBuf : result bytes) (rec : EnrollmentRecord.t)
  (key : option bytes) (err : option error) :
  Client.EnrollAccount c password resp rnd_nc rnd_mBuf =
    Returns (Some rec, key, err) ->
  exists r c0 c1 nc mBuf,
    resp = Some r /\ rnd_nc = Ok nc /\ rnd_mBuf = Ok mBuf /\
    PointUnmarshal (EnrollmentResponse.C0 r) = Ok c0 /\
    PointUnmarshal (EnrollmentResponse.C1 r) = Ok c1 /\
    Client.validateProofOfSuccess c (EnrollmentResponse.Proof r)
      (EnrollmentResponse.NS r) c0 c1
      (EnrollmentResponse.C0 r) (EnrollmentResponse.C1 r) = true /\
    let x := Client.clientPrivateKey c in
    let hc0 := hashToPoint dhc0 [nc; password] in
    let hc1 := hashToPoint dhc1 [nc; password] in
    let m := hashToPoint dm [mBuf] in
    rec = {| EnrollmentRecord.NS := EnrollmentResponse.NS r;
             EnrollmentRecord.NC := nc;
             EnrollmentRecord.T0 := Marshal (Add c0 (ScalarMultInt hc0 x));
             EnrollmentRecord.T1 :=
               Marshal (Add (Add c1 (ScalarMultInt hc1 x)) (ScalarMultInt m x)) |} /\
    key = Some (derivedKey m) /\ err = None.
Proof.
  unfold Client.EnrollAccount. intros H.
  destruct resp as [r|]; [|discriminate].
  destruct (PointUnmarshal (EnrollmentResponse.C0 r)) as [c0|e] eqn:Hc0;
    [|discriminate].
  destruct (PointUnmarshal (EnrollmentResponse.C1 r)) as [c1|e] eqn:Hc1;
    [|discriminate].
  cbv zeta in H.
  destruct (Client.validateProofOfSuccess _ _ _ _ _ _ _) eqn:Hproof;
    cbn [negb] in H; [|discriminate].
  destruct rnd_nc as [nc|e]; [|discriminate].
  destruct rnd_mBuf as [mBuf|e]; [|discriminate].
  rewrite hkdfRead_32 in H. injection H as <- <- <-.
  exists r, c0, c1, nc, mBuf. cbv zeta.
  repeat split; try reflexivity; assumption.
Qed.


End ClientGuards.

Section KeyFacts.
Context `{C : Curve} `{Prim : !Primitives}.

Lemma Bytes_nonempty (z : Z) : 0 < z -> List.length (BigInt.Bytes z) <> 0%nat.
Proof.
  intros Hz E. apply List.length_zero_iff_nil in E.
  pose proof (BigIntFacts.SetBytes_Bytes z ltac:(lia)) as H.
  rewrite E in H. cbn in H. lia.
Qed.

(** X9.  A key made by [GenerateClientKey] from a positive draw is accepted by
    [NewClient] with any public key that decodes, and the client scalar is
    the draw; the key made from the draw 0 is empty and [NewClient] rejects
    it. *)
Theorem GenerateClientKey_accepted (rnd : Z) (pub : bytes) (Y : Point) :
  PointUnmarshal pub = Ok Y ->
  (0 < rnd ->
   Client.NewClient (ClientKeys.GenerateClientKey rnd) pub =
     (Some {| Client.clientPrivateKey := rnd;
              Client.clientPrivateKeyBytes := BigInt.Bytes rnd;
              Client.serverPublicKey := Y;
              Client.serverPublicKeyBytes := pub |}, None)) /\
  (rnd = 0 ->
   Client.NewClient (ClientKeys.GenerateClientKey rnd) pub =
     (None, Some (errorsNew "invalid private key"))).
Proof.
  intros HY. unfold Client.NewClient, ClientKeys.GenerateClientKey. split.
  - intros Hrnd.
    destruct (Nat.eqb_spec (List.length (BigInt.Bytes rnd)) 0) as [E|_];
      [now apply Bytes_nonempty in E|].
    rewrite HY, BigIntFacts.SetBytes_Bytes by lia. reflexivity.
  - intros ->. reflexivity.
Qed.

(** X10.  The public key [GetPublicKey] reads from a generated keypair is the
    65-byte encoding of [y·G], and [NewClient] accepts it with every
    non-empty private key. *)
Theorem generated_public_key_accepted
  (y : Z) (serverKeypair clientKey : bytes) :
  0 < y < orderN ->
  Server.GenerateServerKeypair y = Ok serverKeypair ->
  List.length clientKey <> 0%nat ->
  let Y := ScalarMultInt curveG y in
  Server.GetPublicKey serverKeypair = (Some (Marshal Y), None) /\
  List.length (Marshal Y) = 65%nat /\
  Client.NewClient clientKey (Marshal Y) =
    (Some {| Client.clientPrivateKey := BigInt.SetBytes clientKey;
             Client.clientPrivateKeyBytes := clientKey;
             Client.serverPublicKey := Y;
             Client.serverPublicKeyBytes := Marshal Y |}, None).
Proof.
  intros Hy Hgen Hlen Y.
  unfold Server.GenerateServerKeypair in Hgen.
  apply unmarshalKeypair_marshalKeypair in Hgen.
  unfold Server.GetPublicKey. rewrite Hgen. cbn [PublicKey].
  unfold ScalarBaseMult. rewrite ScalarMult_Bytes by lia. fold Y.
  split; [reflexivity|]. split; [apply Marshal_length|].
  unfold Client.NewClient.
  destruct (Nat.eqb_spec (List.length clientKey) 0) as [E|_]; [contradiction|].
  rewrite PointUnmarshal_Marshal; [reflexivity|].
  apply ScalarMultInt_nonzero; [apply curveG_valid|now apply scalar_mod_nonzero].
Qed.

(** X11.  [RotateClientKeys] on the bytes a client was made from returns the
    cached bytes of that client after [Rotate] with the same token, and fails
    with the same error when the token does not parse. *)
Theorem RotateClientKeys_agrees_with_Rotate
  (clientPrivate serverPublic : bytes) (c : Client.t)
  (token : option UpdateToken.t) :
  Client.NewClient clientPrivate serverPublic = (Some c, None) ->
  ClientKeys.RotateClientKeys clientPrivate serverPublic token =
    match Client.Rotate c token with
    | (c', None) =>
        (Some (Client.clientPrivateKeyBytes c'),
         Some (Client.serverPublicKeyBytes c'), None)
    | (_, Some e) => (None, None, Some e)
    end.
Proof.
  unfold Client.NewClient, ClientKeys.RotateClientKeys, Client.Rotate.
  intros H.
  destruct (List.length clientPrivate =? 0)%nat; [discriminate|].
  destruct (PointUnmarshal serverPublic) as [pub|e]; [|discriminate].
  injection H as <-.
  destruct (Parse.UpdateToken token) as [[a b]|e]; reflexivity.
Qed.

(** X12.  [RotateClientKeys] returns keys exactly when the token parses and
    [NewClient] would accept the two byte strings. *)
Theorem RotateClientKeys_succeeds_iff
  (clientPrivate serverPublic : bytes) (token : option UpdateToken.t) :
  (exists priv' pub',
     ClientKeys.RotateClientKeys clientPrivate serverPublic token =
       (Some priv', Some pub', None)) <->
  (exists a b, Parse.UpdateToken token = Ok (a, b)) /\
  (exists c, Client.NewClient clientPrivate serverPublic = (Some c, None)).
Proof.
  unfold ClientKeys.RotateClientKeys, Client.NewClient. split.
  - intros (p & s & H).
    destruct (Parse.UpdateToken token) as [[a b]|e]; [|discriminate].
    split; [eauto|].
    destruct (PointUnmarshal serverPublic) as [pub|e]; [|discriminate].
    destruct (List.length clientPrivate =? 0)%nat; [discriminate|]. eauto.
  - intros [(a & b & ->) (c & H)].
    destruct (List.length clientPrivate =? 0)%nat; [discriminate|].
    destruct (PointUnmarshal serverPublic) as [pub|e]; [|discriminate]. eauto.
Qed.

End KeyFacts.

Section RotationLaws.
Context `{C : Curve} `{Prim : !Primitives}.

(** X13.  After a rotation of the server and of the client with the token it
    issued, the public key the client caches is the public key of the new
    server keypair, [(y·a + b)·G], and the client scalar is [x·a]. *)
Theorem rotation_keeps_public_key_agreement
  (y : Z) (serverKeypair pub clientKey : bytes) (c : Client.t)
  (rnd_a rnd_b : Z) (token : UpdateToken.t) (serverKeypair' : bytes) :
  0 < y < orderN ->
  Server.GenerateServerKeypair y = Ok serverKeypair ->
  Server.GetPublicKey serverKeypair = (Some pub, None) ->
  Client.NewClient clientKey pub = (Some c, None) ->
  0 <= rnd_a -> 0 <= rnd_b ->
  Server.Rotate serverKeypair rnd_a rnd_b =
    (Some token, Some serverKeypair', None) ->
  exists c',
    Client.Rotate c (Some token) = (c', None) /\
    Server.GetPublicKey serverKeypair' =
      (Some (Client.serverPublicKeyBytes c'), None) /\
    Client.serverPublicKey c' =
      ScalarMultInt curveG (gf.Add (gf.Mul y rnd_a) rnd_b) /\
    Client.clientPrivateKey c' = gf.Mul (BigInt.SetBytes clientKey) rnd_a.
Proof.
  intros Hy Hgen Hpub Hnew Ha Hb Hrot.
  destruct (honest_keys_generated _ _ _ _ _ Hy Hgen Hpub Hnew)
    as (kp & Hkp & (_ & Hpriv & _ & HcY & _) & Hx).
  unfold Server.Rotate in Hrot. rewrite Hkp in Hrot. cbv zeta in Hrot.
  destruct (marshalKeypair _ _) as [k'|e] eqn:Hm; [|discriminate].
  injection Hrot as <- <-.
  apply unmarshalKeypair_marshalKeypair in Hm.
  unfold Client.Rotate, Parse.UpdateToken. cbn [UpdateToken.A UpdateToken.B].
  rewrite !BigIntFacts.SetBytes_Bytes by lia.
  eexists. split; [reflexivity|].
  cbn [Client.serverPublicKeyBytes Client.serverPublicKey Client.clientPrivateKey].
  unfold Server.GetPublicKey. rewrite Hm. cbn [PublicKey].
  unfold ScalarBaseMult.
  rewrite ScalarMult_Bytes by (unfold gf.Add; apply gf_nonneg).
  rewrite Hpriv. unfold gf.MulBytes.
  rewrite BigIntFacts.SetBytes_Bytes by lia. rewrite HcY, Hx.
  assert (Add (ScalarMultInt (ScalarMultInt curveG y) rnd_a)
              (ScalarBaseMultInt rnd_b) =
          ScalarMultInt curveG (gf.Add (gf.Mul y rnd_a) rnd_b)) as ->
    by pt_eq.
  repeat split.
Qed.

(** X14.  Rotating a client with one token and then with another is rotating it
    once with the composed token. *)
Theorem Client_Rotate_composes (c : Client.t) (t1 t2 : UpdateToken.t) :
  Client.Rotate (fst (Client.Rotate c (Some t1))) (Some t2) =
  Client.Rotate c (Some (composeTokens t1 t2)).
Proof.
  unfold Client.Rotate, Parse.UpdateToken, composeTokens.
  cbn [fst UpdateToken.A UpdateToken.B Client.clientPrivateKey
       Client.serverPublicKey].
  rewrite !BigIntFacts.SetBytes_Bytes
    by (unfold gf.Add, gf.Mul; apply gf_nonneg).
  set (a1 := BigInt.SetBytes (UpdateToken.A t1)).
  set (b1 := BigInt.SetBytes (UpdateToken.B t1)).
  set (a2 := BigInt.SetBytes (UpdateToken.A t2)).
  set (b2 := BigInt.SetBytes (UpdateToken.B t2)).
  assert (gf.Mul (gf.Mul (Client.clientPrivateKey c) a1) a2 =
          gf.Mul (Client.clientPrivateKey c) (gf.Mul a1 a2)) as ->
    by zmod_solve.
  assert (Add (ScalarMultInt
                 (Add (ScalarMultInt (Client.serverPublicKey c) a1)
                      (ScalarBaseMultInt b1)) a2) (ScalarBaseMultInt b2) =
          Add (ScalarMultInt (Client.serverPublicKey c) (gf.Mul a1 a2))
              (ScalarBaseMultInt (gf.Add (gf.Mul b1 a2) b2))) as ->
    by pt_eq.
  reflexivity.
Qed.

(** X15.  Updating a record with one token and then with another gives what one
    update with the composed token gives, as long as the record after the
    first update holds two valid points. *)
Theorem UpdateRecord_composes
  (rc : EnrollmentRecord.t) (t1 t2 : UpdateToken.t) (t0 t1p : Point) :
  Parse.EnrollmentRecord (Some rc) = Ok (t0, t1p) ->
  let a1 := BigInt.SetBytes (UpdateToken.A t1) in
  let b1 := BigInt.SetBytes (UpdateToken.B t1) in
  let hs0 := hashToPoint dhs0 [EnrollmentRecord.NS rc] in
  let hs1 := hashToPoint dhs1 [EnrollmentRecord.NS rc] in
  Add (ScalarMultInt t0 a1) (ScalarMultInt hs0 b1) <> Inf ->
  Add (ScalarMultInt t1p a1) (ScalarMultInt hs1 b1) <> Inf ->
  exists rc1,
    Client.UpdateRecord (Some rc) (Some t1) = (Some rc1, None) /\
    Client.UpdateRecord (Some rc1) (Some t2) =
    Client.UpdateRecord (Some rc) (Some (composeTokens t1 t2)).
Proof.
  intros Hrec a1 b1 hs0 hs1 H0 H1.
  unfold Client.UpdateRecord at 1. unfold Parse.UpdateToken. rewrite Hrec.
  fold a1 b1 hs0 hs1. eexists. split; [reflexivity|].
  unfold Client.UpdateRecord, Parse.UpdateToken, Parse.EnrollmentRecord at 1.
  cbn [EnrollmentRecord.T0 EnrollmentRecord.T1 EnrollmentRecord.NS
       EnrollmentRecord.NC].
  rewrite (PointUnmarshal_Marshal _ H0), (PointUnmarshal_Marshal _ H1), Hrec.
  unfold composeTokens. cbn [UpdateToken.A UpdateToken.B].
  rewrite !BigIntFacts.SetBytes_Bytes
    by (unfold gf.Add, gf.Mul; apply gf_nonneg).
  fold a1 b1 hs0 hs1.
  set (a2 := BigInt.SetBytes (UpdateToken.A t2)).
  set (b2 := BigInt.SetBytes (UpdateToken.B t2)).
  assert (Add (ScalarMultInt (Add (ScalarMultInt t0 a1) (ScalarMultInt hs0 b1)) a2)
              (ScalarMultInt hs0 b2) =
          Add (ScalarMultInt t0 (gf.Mul a1 a2))
              (ScalarMultInt hs0 (gf.Add (gf.Mul b1 a2) b2))) as -> by pt_eq.
  assert (Add (ScalarMultInt (Add (ScalarMultInt t1p a1) (ScalarMultInt hs1 b1)) a2)
              (ScalarMultInt hs1 b2) =
          Add (ScalarMultInt t1p (gf.Mul a1 a2))
              (ScalarMultInt hs1 (gf.Add (gf.Mul b1 a2) b2))) as -> by pt_eq.
  reflexivity.
Qed.

(** X16.  Two rotations of the server in a row give the keypair one rotation gives
    with the draws [a1·a2] and [b1·a2 + b2], and the token of that rotation
    is the composition of the two tokens. *)
Theorem Server_Rotate_composes
  (serverKeypair kp1 kp2 : bytes) (a1 b1 a2 b2 : Z) (t1 t2 : UpdateToken.t) :
  0 <= a1 -> 0 <= b1 -> 0 <= a2 -> 0 <= b2 ->
  Server.Rotate serverKeypair a1 b1 = (Some t1, Some kp1, None) ->
  Server.Rotate kp1 a2 b2 = (Some t2, Some kp2, None) ->
  Server.Rotate serverKeypair (gf.Mul a1 a2) (gf.Add (gf.Mul b1 a2) b2) =
    (Some (composeTokens t1 t2), Some kp2, None).
Proof.
  intros Ha1 Hb1 Ha2 Hb2 H1 H2.
  unfold Server.Rotate in *.
  destruct (unmarshalKeypair serverKeypair) as [kp|e]; [|discriminate].
  cbv zeta in *.
  destruct (marshalKeypair _ _) as [k1|e] eqn:Hm1 in H1; [|discriminate].
  injection H1 as <- <-.
  apply unmarshalKeypair_marshalKeypair in Hm1. rewrite Hm1 in H2.
  cbn [PrivateKey] in H2.
  destruct (marshalKeypair _ _) as [k2|e] eqn:Hm2 in H2; [|discriminate].
  injection H2 as <- <-.
  unfold gf.MulBytes in *.
  rewrite BigIntFacts.SetBytes_Bytes in Hm2 by (unfold gf.Add; apply gf_nonneg).
  set (p := BigInt.SetBytes (PrivateKey kp)) in *.
  assert (gf.Add (gf.Mul p (gf.Mul a1 a2)) (gf.Add (gf.Mul b1 a2) b2) =
          gf.Add (gf.Mul (gf.Add (gf.Mul p a1) b1) a2) b2) as ->
    by zmod_solve.
  rewrite Hm2. unfold composeTokens. cbn [UpdateToken.A UpdateToken.B].
  rewrite !BigIntFacts.SetBytes_Bytes by lia. reflexivity.
Qed.

End RotationLaws.

Section PasswordFacts.
Context `{C : Curve} `{Prim : !Primitives}.

(** The request point made from an honest record with the attempt [hc0']
    is [y·hs0] exactly when the attempt hashes to the enrolled point. *)
Lemma request_point_matches_iff (hs0 hc0 hc0' : Point) (x y : Z) :
  x mod orderN <> 0 ->
  let t0 := Add (ScalarMultInt hs0 y) (ScalarMultInt hc0 x) in
  ScalarMultInt hs0 y = Add t0 (ScalarMultInt hc0' (gf.Neg x)) <-> hc0' = hc0.
Proof.
  intros Hx t0. unfold t0. split.
  - intros E.
    assert (Add (Add (ScalarMultInt hs0 y) (ScalarMultInt hc0 x))
                (ScalarMultInt hc0' (gf.Neg x)) =
            Add (ScalarMultInt hs0 y) (ScalarMultInt (Add hc0 (Neg hc0')) x)) as E'
      by pt_eq.
    rewrite E' in E. rewrite <- (Add_Inf_r (ScalarMultInt hs0 y)) in E at 1.
    apply Add_cancel_l in E. symmetry in E.
    destruct (ScalarMultInt_Inf_inv _ _ E) as [D|D]; [|contradiction].
    symmetry. now apply Add_Neg_eq.
  - intros ->. pt_eq.
Qed.

(** The records [CreateVerifyPasswordRequest] accepts and the request it
    makes of them. *)
Lemma CreateVerifyPasswordRequest_inv
  (c : Client.t) (password : bytes) (rec : option EnrollmentRecord.t)
  (req : VerifyPasswordRequest.t) :
  Client.CreateVerifyPasswordRequest c password rec = (Some req, None) <->
  exists rc t0,
    rec = Some rc /\
    List.length (EnrollmentRecord.NC rc) <> 0%nat /\
    List.length (EnrollmentRecord.NS rc) <> 0%nat /\
    PointUnmarshal (EnrollmentRecord.T0 rc) = Ok t0 /\
    req = {| VerifyPasswordRequest.NS := EnrollmentRecord.NS rc;
             VerifyPasswordRequest.C0 :=
               Marshal (Add t0 (ScalarMultInt
                                  (hashToPoint dhc0 [EnrollmentRecord.NC rc; password])
                                  (gf.Neg (Client.clientPrivateKey c)))) |}.
Proof.
  unfold Client.CreateVerifyPasswordRequest. split.
  - intros H. destruct rec as [rc|]; [|discriminate].
    destruct (Nat.eqb_spec (List.length (EnrollmentRecord.NC rc)) 0) as [|Hnc];
      [discriminate|].
    destruct (Nat.eqb_spec (List.length (EnrollmentRecord.NS rc)) 0) as [|Hns];
      [discriminate|].
    destruct (Nat.eqb_spec (List.length (EnrollmentRecord.T0 rc)) 0) as [|Ht0];
      [discriminate|].
    cbn [orb] in H. cbv zeta in H.
    destruct (PointUnmarshal (EnrollmentRecord.T0 rc)) as [t0|e] eqn:Hp;
      [|discriminate].
    injection H as <-. exists rc, t0. auto.
  - intros (rc & t0 & -> & Hnc & Hns & Hp & ->).
    destruct (PointUnmarshal_Ok _ _ Hp) as [Hm _].
    assert (List.length (EnrollmentRecord.T0 rc) <> 0%nat) as Ht0
      by (rewrite <- Hm, Marshal_length; discriminate).
    apply Nat.eqb_neq in Hnc, Hns, Ht0. rewrite Hnc, Hns, Ht0. cbn [orb].
    cbv zeta. rewrite Hp. reflexivity.
Qed.

(** X17.  [CreateVerifyPasswordRequest] succeeds exactly on a record with a
    non-empty [NC], a non-empty [NS] and a [T0] that decodes; the request
    then carries the record's [NS] and the point [T0 − x·HC0].  [T1] is not
    read. *)
Theorem CreateVerifyPasswordRequest_succeeds_iff
  (c : Client.t) (password : bytes) (rec : option EnrollmentRecord.t)
  (req : VerifyPasswordRequest.t) :
  Client.CreateVerifyPasswordRequest c password rec = (Some req, None) <->
  exists rc t0,
    rec = Some rc /\
    List.length (EnrollmentRecord.NC rc) <> 0%nat /\
    List.length (EnrollmentRecord.NS rc) <> 0%nat /\
    PointUnmarshal (EnrollmentRecord.T0 rc) = Ok t0 /\
    req = {| VerifyPasswordRequest.NS := EnrollmentRecord.NS rc;
             VerifyPasswordRequest.C0 :=
               Marshal (Add t0 (ScalarMultInt
                                  (hashToPoint dhc0 [EnrollmentRecord.NC rc; password])
                                  (gf.Neg (Client.clientPrivateKey c)))) |}.
Proof. exact (CreateVerifyPasswordRequest_inv c password rec req). Qed.

(** X18.  The client puts no upper bound on the server nonce: a request made from
    a record whose [NS] is longer than 32 bytes carries that [NS], and the
    server refuses it. *)
Theorem long_NS_request_is_refused
  (c : Client.t) (password serverKeypair : bytes) (kp : keypair)
  (rc : EnrollmentRecord.t) (req : VerifyPasswordRequest.t)
  (rnd_x rnd_r rnd_a rnd_b : Z) :
  unmarshalKeypair serverKeypair = Ok kp ->
  (32 < List.length (EnrollmentRecord.NS rc))%nat ->
  Client.CreateVerifyPasswordRequest c password (Some rc) = (Some req, None) ->
  VerifyPasswordRequest.NS req = EnrollmentRecord.NS rc /\
  Server.VerifyPassword serverKeypair (Some req) rnd_x rnd_r rnd_a rnd_b =
    (None, Some (errorsNew "Invalid password verify request")).
Proof.
  intros Hkp Hlen Hreq.
  unfold Client.CreateVerifyPasswordRequest in Hreq.
  destruct (_ || _)%bool; [discriminate|]. cbv zeta in Hreq.
  destruct (PointUnmarshal (EnrollmentRecord.T0 rc)); [|discriminate].
  injection Hreq as <-. cbn [VerifyPasswordRequest.NS]. split; [reflexivity|].
  unfold Server.VerifyPassword. rewrite Hkp. cbn [VerifyPasswordRequest.NS].
  apply Nat.ltb_lt in Hlen. rewrite Hlen. reflexivity.
Qed.

(** X19.  With honest keys and a record enrolled under [password], the server
    answers an attempt with [Res = true] exactly when the attempt hashes to
    the same point [HC0] as the enrolled password. *)
Theorem server_accepts_iff_same_password_point
  (y : Z) (serverKeypair pub clientKey : bytes) (c : Client.t)
  (password attempt : bytes) (rc : EnrollmentRecord.t)
  (req : VerifyPasswordRequest.t) (vresp : VerifyPasswordResponse.t)
  (rnd_x rnd_r rnd_a rnd_b : Z) :
  0 < y < orderN ->
  Server.GenerateServerKeypair y = Ok serverKeypair ->
  Server.GetPublicKey serverKeypair = (Some pub, None) ->
  Client.NewClient clientKey pub = (Some c, None) ->
  let x := BigInt.SetBytes clientKey in
  x mod orderN <> 0 ->
  let hs0 := hashToPoint dhs0 [EnrollmentRecord.NS rc] in
  let hc0 := hashToPoint dhc0 [EnrollmentRecord.NC rc; password] in
  let hc0' := hashToPoint dhc0 [EnrollmentRecord.NC rc; attempt] in
  let t0 := Add (ScalarMultInt hs0 y) (ScalarMultInt hc0 x) in
  EnrollmentRecord.T0 rc = Marshal t0 ->
  t0 <> Inf ->
  Add t0 (ScalarMultInt hc0' (gf.Neg x)) <> Inf ->
  Client.CreateVerifyPasswordRequest c attempt (Some rc) = (Some req, None) ->
  Server.VerifyPassword serverKeypair (Some req) rnd_x rnd_r rnd_a rnd_b =
    (Some vresp, None) ->
  (VerifyPasswordResponse.Res vresp = true <-> hc0' = hc0).
Proof.
  intros Hy Hgen Hpub Hnew x Hx hs0 hc0 hc0' t0 HT0 Ht0 Hq Hreq Hver.
  destruct (honest_keys_generated _ _ _ _ _ Hy Hgen Hpub Hnew)
    as (kp & Hkp & (_ & Hpriv & _) & Hcx).
  apply CreateVerifyPasswordRequest_inv in Hreq.
  destruct Hreq as (rc' & t0' & Hrc & _ & _ & Hp & ->).
  injection Hrc as <-. rewrite HT0, (PointUnmarshal_Marshal _ Ht0) in Hp.
  injection Hp as <-. rewrite Hcx in Hver. fold x hc0' in Hver.
  unfold Server.VerifyPassword in Hver. rewrite Hkp in Hver.
  cbn [VerifyPasswordRequest.NS VerifyPasswordRequest.C0] in Hver.
  destruct (_ || _)%bool; [discriminate|].
  rewrite (PointUnmarshal_Marshal _ Hq) in Hver. cbv zeta in Hver.
  fold hs0 in Hver. rewrite Hpriv, !ScalarMult_Bytes in Hver by lia.
  pose proof (request_point_matches_iff hs0 hc0 hc0' x y Hx) as Hiff.
  cbv zeta in Hiff. fold t0 in Hiff.
  destruct (Equal (ScalarMultInt hs0 y) _) eqn:E.
  - apply Equal_true_iff in E. injection Hver as <-.
    cbn [VerifyPasswordResponse.Res]. split; [intros _; now apply Hiff|reflexivity].
  - apply Equal_false_iff in E.
    destruct (Server.proveFailure _ _ _ _ _ _) as [[c1 proof] [e|]];
      [discriminate|].
    injection Hver as <-. cbn [VerifyPasswordResponse.Res].
    split; [discriminate|]. intros H. apply Hiff in H. contradiction.
Qed.

(** X20.  The whole path of a wrong password, as the code runs it: the attempt
    hashes to another point than the enrolled password, the server answers
    [Res = false] with a proof of failure, and [CheckResponseAndDecrypt]
    returns no key and a nil error. *)
Theorem wrong_password_gives_no_key
  (y : Z) (serverKeypair pub clientKey : bytes) (c : Client.t)
  (password attempt : bytes) (rc : EnrollmentRecord.t) (t1 : Point)
  (rnd_x rnd_r rnd_a rnd_b : Z) :
  0 < y < orderN ->
  Server.GenerateServerKeypair y = Ok serverKeypair ->
  Server.GetPublicKey serverKeypair = (Some pub, None) ->
  Client.NewClient clientKey pub = (Some c, None) ->
  let x := BigInt.SetBytes clientKey in
  x mod orderN <> 0 ->
  (0 < List.length (EnrollmentRecord.NS rc) <= 32)%nat ->
  (0 < List.length (EnrollmentRecord.NC rc))%nat ->
  let hs0 := hashToPoint dhs0 [EnrollmentRecord.NS rc] in
  let hc0 := hashToPoint dhc0 [EnrollmentRecord.NC rc; password] in
  let hc0' := hashToPoint dhc0 [EnrollmentRecord.NC rc; attempt] in
  let t0 := Add (ScalarMultInt hs0 y) (ScalarMultInt hc0 x) in
  EnrollmentRecord.T0 rc = Marshal t0 ->
  t0 <> Inf ->
  PointUnmarshal (EnrollmentRecord.T1 rc) = Ok t1 ->
  hc0' <> hc0 ->
  Add t0 (ScalarMultInt hc0' (gf.Neg x)) <> Inf ->
  0 < rnd_r < orderN -> 0 < rnd_a < orderN -> 0 < rnd_b < orderN ->
  exists req vresp,
    Client.CreateVerifyPasswordRequest c attempt (Some rc) = (Some req, None) /\
    Server.VerifyPassword serverKeypair (Some req) rnd_x rnd_r rnd_a rnd_b =
      (Some vresp, None) /\
    VerifyPasswordResponse.Res vresp = false /\
    Client.CheckResponseAndDecrypt c attempt (Some rc) (Some vresp) =
      Returns (None, None).
Proof.
  intros Hy Hgen Hpub Hnew x Hx Hns Hnc hs0 hc0 hc0' t0 HT0 Ht0 HT1 Hne Hq
         Hr Ha Hb.
  destruct (honest_keys_generated _ _ _ _ _ Hy Hgen Hpub Hnew)
    as (kp & Hkp & Hkeys & Hcx).
  pose proof Hkeys as (_ & Hpriv & HpubK & HcY & HcYb).
  set (q := Add t0 (ScalarMultInt hc0' (gf.Neg x))) in *.
  assert (ScalarMultInt hs0 y <> q) as Hneq.
  { intros E. apply Hne.
    apply (proj1 (request_point_matches_iff hs0 hc0 hc0' x y Hx)). exact E. }
  destruct (proveFailure_honest kp c y q hs0 rnd_r rnd_a rnd_b Hkeys Hq
              (hashToPoint_valid _ _) Hneq Hr Ha Hb)
    as (c1 & pf & p1 & p2 & p3 & p4 & bA & bB & Hpf & Hc1n & Hparse & Heq1 & Heq2).
  cbv zeta in Heq1.
  exists {| VerifyPasswordRequest.NS := EnrollmentRecord.NS rc;
            VerifyPasswordRequest.C0 := Marshal q |}.
  exists {| VerifyPasswordResponse.Res := false;
            VerifyPasswordResponse.C1 := Marshal c1;
            VerifyPasswordResponse.ProofSuccess := None;
            VerifyPasswordResponse.ProofFail := Some pf |}.
  split.
  { apply CreateVerifyPasswordRequest_inv.
    exists rc, t0. rewrite HT0, (PointUnmarshal_Marshal _ Ht0), Hcx.
    repeat split; lia. }
  split.
  { unfold Server.VerifyPassword. rewrite Hkp.
    cbn [VerifyPasswordRequest.NS VerifyPasswordRequest.C0].
    rewrite (NS_length_ok _ Hns), (PointUnmarshal_Marshal _ Hq).
    fold hs0. rewrite Hpriv, ScalarMult_Bytes by lia.
    rewrite (proj2 (Equal_false_iff _ _) Hneq), Hpf. reflexivity. }
  split; [reflexivity|].
  unfold Client.CheckResponseAndDecrypt, Parse.EnrollmentRecord.
  rewrite HT0, (PointUnmarshal_Marshal _ Ht0), HT1.
  cbn [VerifyPasswordResponse.C1 VerifyPasswordResponse.Res].
  rewrite (PointUnmarshal_Marshal _ Hc1n). rewrite Hcx. fold x hc0' hs0.
  fold q. f_equal. f_equal.
  match goal with
  | |- Client.validateProofOfFail c ?r _ _ _ ?a ?b = None =>
      apply (proj2 (validateProofOfFail_parsed c r pf q c1 hs0 a b
                      p1 p2 p3 p4 bA bB eq_refl Hparse))
  end.
  cbn [VerifyPasswordResponse.C1]. rewrite HcYb, HcY. split; assumption.
Qed.

End PasswordFacts.

(** ** [RandomZ]: one read decides *)

(** X21.  [RandomZ] reads the random source once: it returns the first draw when
    that is below the group order and panics otherwise, in both variants of
    the function. *)
Theorem RandomZ_decided_by_first_draw (fuel : nat) (reader : nat -> bytes) :
  Utils.RandomZ (S fuel) reader =
    Some (if BigInt.SetBytes (reader O) <? P256_N
          then Returns (reader O) else Panics) /\
  Unnamed0.RandomZ (S fuel) reader =
    Some (if BigInt.SetBytes (reader O) <? P256_N
          then Returns (BigInt.SetBytes (reader O)) else Panics).
Proof.
  unfold Utils.RandomZ, Unnamed0.RandomZ.
  cbn [Utils.RandomZ_loop Unnamed0.RandomZ_loop]. rewrite Cmp_ge_0.
  destruct (Z.leb_spec P256_N (BigInt.SetBytes (reader O))) as [H|H];
    destruct (Z.ltb_spec (BigInt.SetBytes (reader O)) P256_N); try lia.
  - split; reflexivity.
  - destruct fuel; split; reflexivity.
Qed.

Section EnrollmentFacts.
Context `{C : Curve} `{Prim : !Primitives}.

(** X22.  The enrollment response of an honest server carries the nonce it drew,
    the points [y·HS0] and [y·HS1], and a proof of success that the client
    made with the server's public key accepts. *)
Theorem enrollment_response_accepted
  (y : Z) (serverKeypair pub clientKey : bytes) (c : Client.t)
  (ns : bytes) (rnd : Z) :
  0 < y < orderN ->
  Server.GenerateServerKeypair y = Ok serverKeypair ->
  Server.GetPublicKey serverKeypair = (Some pub, None) ->
  Client.NewClient clientKey pub = (Some c, None) ->
  0 < rnd < orderN ->
  let c0 := ScalarMultInt (hashToPoint dhs0 [ns]) y in
  let c1 := ScalarMultInt (hashToPoint dhs1 [ns]) y in
  exists resp,
    Server.GetEnrollment serverKeypair (Ok ns) rnd = (Some resp, None) /\
    EnrollmentResponse.NS resp = ns /\
    PointUnmarshal (EnrollmentResponse.C0 resp) = Ok c0 /\
    PointUnmarshal (EnrollmentResponse.C1 resp) = Ok c1 /\
    Client.validateProofOfSuccess c (EnrollmentResponse.Proof resp) ns c0 c1
      (EnrollmentResponse.C0 resp) (EnrollmentResponse.C1 resp) = true.
Proof.
  intros Hy Hgen Hpub Hnew Hrnd c0 c1.
  destruct (honest_keys_generated _ _ _ _ _ Hy Hgen Hpub Hnew)
    as (kp & Hkp & Hkeys & _).
  pose proof Hkeys as (_ & Hpriv & _).
  assert (c0 <> Inf /\ c1 <> Inf) as [Hc0 Hc1]
    by (split; apply ScalarMultInt_nonzero;
        first [apply hashToPoint_valid|now apply scalar_mod_nonzero]).
  eexists. split.
  { unfold Server.GetEnrollment, Server.eval. rewrite Hkp. cbv zeta.
    rewrite Hpriv, !ScalarMult_Bytes by lia. reflexivity. }
  cbn [EnrollmentResponse.NS EnrollmentResponse.C0 EnrollmentResponse.C1
       EnrollmentResponse.Proof].
  split; [reflexivity|].
  split; [now apply PointUnmarshal_Marshal|].
  split; [now apply PointUnmarshal_Marshal|].
  exact (proveSuccess_accepted kp c y ns rnd Hkeys Hrnd).
Qed.

(** X23.  A token whose scalars are 1 and 0 modulo the group order leaves every
    record that parses as it is. *)
Theorem UpdateRecord_identity
  (rc : EnrollmentRecord.t) (t0 t1 : Point) (token : UpdateToken.t) :
  Parse.EnrollmentRecord (Some rc) = Ok (t0, t1) ->
  BigInt.SetBytes (UpdateToken.A token) mod orderN = 1 ->
  BigInt.SetBytes (UpdateToken.B token) mod orderN = 0 ->
  Client.UpdateRecord (Some rc) (Some token) = (Some rc, None).
Proof.
  intros Hrec Ha Hb.
  unfold Client.UpdateRecord, Parse.UpdateToken. rewrite Hrec.
  unfold Parse.EnrollmentRecord in Hrec.
  destruct (PointUnmarshal (EnrollmentRecord.T0 rc)) as [p0|e] eqn:H0;
    [|discriminate].
  destruct (PointUnmarshal (EnrollmentRecord.T1 rc)) as [p1|e] eqn:H1;
    [|discriminate].
  injection Hrec as -> ->.
  apply PointUnmarshal_Ok in H0, H1. destruct H0 as [H0 _], H1 as [H1 _].
  assert (forall p q : Point,
            Add (ScalarMultInt p (BigInt.SetBytes (UpdateToken.A token)))
                (ScalarMultInt q (BigInt.SetBytes (UpdateToken.B token))) = p)
    as Hid.
  { intros p q.
    rewrite <- (ScalarMultInt_mod p), <- (ScalarMultInt_mod q), Ha, Hb.
    now rewrite ScalarMultInt_1, ScalarMultInt_0, Add_Inf_r. }
  rewrite !Hid, H0, H1. destruct rc; reflexivity.
Qed.

End EnrollmentFacts.

(** ** Concrete runs on the small instance *)
Import ToyFacts.

Module Example.

Definition pw : bytes := list_byte_of_string "pw".
Definition wrong_pw : bytes := list_byte_of_string "PW".
Definition ns : bytes := repeat x01 32.
Definition nc : bytes := repeat x02 32.
Definition mBuf : bytes := repeat x03 32.

(** The server keypair generated from the draw 3. *)
Definition serverKeypair : bytes :=
  match Server.GenerateServerKeypair 3 with
  | Ok k => k
  | Err _ => []
  end.

Definition pub : bytes :=
  match Server.GetPublicKey serverKeypair with
  | (Some p, _) => p
  | (None, _) => []
  end.

(** The client made from a private key; the fallback is never taken for the
    keys used below. *)
Definition client (key : bytes) : Client.t :=
  match Client.NewClient key pub with
  | (Some c, _) => c
  | (None, _) =>
      {| Client.clientPrivateKey := 0; Client.clientPrivateKeyBytes := [];
         Client.serverPublicKey := Inf; Client.serverPublicKeyBytes := [] |}
  end.

(** Enrollment of [pw] with proof blind 4. *)
Definition enrolled (key : bytes) :=
  Client.EnrollAccount (client key) pw
    (fst (Server.GetEnrollment serverKeypair (Ok ns) 4)) (Ok nc) (Ok mBuf).

Definition record (key : bytes) : option EnrollmentRecord.t :=
  match enrolled key with
  | Returns (rec, _, _) => rec
  | Panics => None
  end.

Definition enrolledKey (key : bytes) : option bytes :=
  match enrolled key with
  | Returns (_, k, _) => k
  | Panics => None
  end.

(** Verification of a password attempt, with server draws 5, 2, 3, 4. *)
Definition request (key password : bytes) : option VerifyPasswordRequest.t :=
  fst (Client.CreateVerifyPasswordRequest (client key) password (record key)).

Definition response (key password : bytes) : option VerifyPasswordResponse.t :=
  fst (Server.VerifyPassword serverKeypair (request key password) 5 2 3 4).

Definition decrypted (key password : bytes) :=
  Client.CheckResponseAndDecrypt (client key) password (record key)
    (response key password).

(** Rotation of the server with draws [a], [b], then of the client and of
    the record with the token, and verification under the new keypair. *)
Definition rotated (a b : Z) := Server.Rotate serverKeypair a b.

Definition token (a b : Z) : option UpdateToken.t := fst (fst (rotated a b)).

Definition serverKeypair' (a b : Z) : bytes :=
  match snd (fst (rotated a b)) with
  | Some k => k
  | None => []
  end.

Definition client' (key : bytes) (a b : Z) : Client.t :=
  fst (Client.Rotate (client key) (token a b)).

Definition record' (key : bytes) (a b : Z) : option EnrollmentRecord.t :=
  fst (Client.UpdateRecord (record key) (token a b)).

Definition request' (key password : bytes) (a b : Z) :=
  fst (Client.CreateVerifyPasswordRequest (client' key a b) password
         (record' key a b)).

Definition verified' (key password : bytes) (a b : Z) :=
  Server.VerifyPassword (serverKeypair' a b) (request' key password a b) 6 2 3 4.

Definition decrypted' (key password : bytes) (a b : Z) :=
  Client.CheckResponseAndDecrypt (client' key a b) password (record' key a b)
    (fst (verified' key password a b)).

(** The same values without the [option], for statements over plain
    records; the fallbacks are never taken for the keys used below. *)
Definition emptyRecord : EnrollmentRecord.t :=
  {| EnrollmentRecord.NS := []; EnrollmentRecord.NC := [];
     EnrollmentRecord.T0 := []; EnrollmentRecord.T1 := [] |}.

Definition theRecord (key : bytes) : EnrollmentRecord.t :=
  match record key with
  | Some r => r
  | None => emptyRecord
  end.

Definition theRequest (key password : bytes) : VerifyPasswordRequest.t :=
  match request key password with
  | Some r => r
  | None => {| VerifyPasswordRequest.NS := []; VerifyPasswordRequest.C0 := [] |}
  end.

Definition theResponse (key password : bytes) : VerifyPasswordResponse.t :=
  match response key password with
  | Some r => r
  | None =>
      {| VerifyPasswordResponse.Res := false; VerifyPasswordResponse.C1 := [];
         VerifyPasswordResponse.ProofSuccess := None;
         VerifyPasswordResponse.ProofFail := None |}
  end.

Definition theToken (a b : Z) : UpdateToken.t :=
  match token a b with
  | Some t => t
  | None => {| UpdateToken.A := []; UpdateToken.B := [] |}
  end.

(** The proof of success carried by the response to a verify request. *)
Definition theProof (key password : bytes) : ProofOfSuccess.t :=
  match VerifyPasswordResponse.ProofSuccess (theResponse key password) with
  | Some p => p
  | None => {| ProofOfSuccess.Term1 := []; ProofOfSuccess.Term2 := [];
               ProofOfSuccess.Term3 := []; ProofOfSuccess.BlindX := [] |}
  end.

End Example.
Import Example.

(** Closed goals over the toy instance are settled by evaluation.  Equations
    between clients are compared lazily: their type mentions the instance. *)
Ltac run :=
  lazymatch goal with
  | |- @eq (option (@Client.t _) * _)%type _ _ => reflexivity
  | |- @eq ((@Client.t _) * _)%type _ _ => reflexivity
  | |- _ =>
      vm_compute; first [reflexivity | discriminate | split; reflexivity | lia]
  end.

Ltac conj_split := repeat match goal with |- _ /\ _ => split end.

(** *** C1 *)

(** C1 at a concrete input: server scalar 3, client key 2, password ["pw"]. *)
Lemma clean_path_round_trip_witness :
  exists resp rec key req vresp,
    Server.GetEnrollment serverKeypair (Ok ns) 4 = (Some resp, None) /\
    Client.EnrollAccount (client [x02]) pw (Some resp) (Ok nc) (Ok mBuf) =
      Returns (Some rec, Some key, None) /\
    Client.CreateVerifyPasswordRequest (client [x02]) pw (Some rec) =
      (Some req, None) /\
    Server.VerifyPassword serverKeypair (Some req) 5 2 3 4 = (Some vresp, None) /\
    VerifyPasswordResponse.Res vresp = true /\
    Client.validateProofOfSuccess (client [x02])
      (VerifyPasswordResponse.ProofSuccess vresp) (EnrollmentRecord.NS rec)
      (ScalarMultInt (hashToPoint dhs0 [ns]) 3)
      (ScalarMultInt (hashToPoint dhs1 [ns]) 3)
      (Marshal (ScalarMultInt (hashToPoint dhs0 [ns]) 3))
      (VerifyPasswordResponse.C1 vresp) = true /\
    Client.CheckResponseAndDecrypt (client [x02]) pw (Some rec) (Some vresp) =
      Returns (Some key, None).
Proof.
  apply (clean_path_round_trip 3 serverKeypair pub [x02] (client [x02])
           pw ns nc mBuf 4 5 2 3 4); run.
Defined.

(** C1 fails as stated.  The one-byte client key [0x00] is not empty, so
    [NewClient] accepts it; enrollment returns a record and a key, the server
    answers the verify request with [Res = true], and
    [CheckResponseAndDecrypt] does not return the enrollment key: the client
    scalar has no inverse.  The record does not determine the key either:
    enrolling with another message seed gives the same record and a
    different key. *)
Lemma clean_path_fails_for_zero_client_key :
  List.length [x00] <> 0%nat /\
  Server.GenerateServerKeypair 3 = Ok serverKeypair /\
  Client.NewClient [x00] pub = (Some (client [x00]), None) /\
  enrolled [x00] = Returns (record [x00], enrolledKey [x00], None) /\
  record [x00] <> None /\ enrolledKey [x00] <> None /\
  option_map VerifyPasswordResponse.Res (response [x00] pw) = Some true /\
  decrypted [x00] pw = Panics /\
  decrypted [x00] pw <> Returns (enrolledKey [x00], None) /\
  Client.EnrollAccount (client [x00]) pw
    (fst (Server.GetEnrollment serverKeypair (Ok ns) 4)) (Ok nc)
    (Ok (repeat x04 32)) =
    Returns (record [x00], Some (x02 :: repeat x00 31), None) /\
  Some (x02 :: repeat x00 31) <> enrolledKey [x00].
Proof. conj_split; run. Qed.

(** *** C2 *)



(** *** C4 *)

(** C4, as the code has it, at a concrete input: rotation with [a = 2],
    [b = 3], which takes the server scalar 3 to 2. *)
Lemma rotation_commutes_with_verify_witness :
  exists resp rec key req vresp c' rec' req' vresp',
    Server.GetEnrollment serverKeypair (Ok ns) 4 = (Some resp, None) /\
    Client.EnrollAccount (client [x02]) pw (Some resp) (Ok nc) (Ok mBuf) =
      Returns (Some rec, Some key, None) /\
    Client.CreateVerifyPasswordRequest (client [x02]) pw (Some rec) =
      (Some req, None) /\
    Server.VerifyPassword serverKeypair (Some req) 5 2 3 4 = (Some vresp, None) /\
    Client.CheckResponseAndDecrypt (client [x02]) pw (Some rec) (Some vresp) =
      Returns (Some key, None) /\
    Client.Rotate (client [x02]) (Some (theToken 2 3)) = (c', None) /\
    Client.UpdateRecord (Some rec) (Some (theToken 2 3)) = (Some rec', None) /\
    Client.CreateVerifyPasswordRequest c' pw (Some rec') = (Some req', None) /\
    Server.VerifyPassword (serverKeypair' 2 3) (Some req') 6 2 3 4 =
      (Some vresp', None) /\
    VerifyPasswordResponse.Res vresp' = true /\
    Client.CheckResponseAndDecrypt c' pw (Some rec') (Some vresp') =
      Returns (Some key, None).
Proof.
  apply (rotation_commutes_with_verify 3 serverKeypair pub [x02] (client [x02])
           pw ns nc mBuf 4 5 2 3 4 2 3 (theToken 2 3) (serverKeypair' 2 3)
           6 2 3 4); run.
Defined.

(** C4 fails as stated.  The run of [Rotate] with draws [a = 1], [b = 4],
    both in [1, n), produces a token and a keypair whose private scalar
    [3·1 + 4] is zero modulo 7.  The client rotates and the record updates
    without error, but the verify request then carries the point at infinity
    and the server returns an error instead of [Res = true], although
    verification before the rotation returned the enrollment key. *)
Lemma rotation_to_zero_key_breaks_verify :
  decrypted [x02] pw = Returns (enrolledKey [x02], None) /\
  enrolledKey [x02] <> None /\
  rotated 1 4 = (Some (theToken 1 4), Some (serverKeypair' 1 4), None) /\
  Client.Rotate (client [x02]) (Some (theToken 1 4)) = (client' [x02] 1 4, None) /\
  Client.UpdateRecord (record [x02]) (Some (theToken 1 4)) =
    (record' [x02] 1 4, None) /\
  record' [x02] 1 4 <> None /\
  request' [x02] pw 1 4 <> None /\
  verified' [x02] pw 1 4 = (None, Some (errorsNew "invalid curve point")).
Proof. conj_split; run. Qed.

(** *** C5 *)

(** C5 at a concrete input: a request with an empty nonce. *)
Lemma VerifyPassword_rejects_malformed_NS_witness :
  let req := Some {| VerifyPasswordRequest.NS := [];
                     VerifyPasswordRequest.C0 := Marshal curveG |} in
  fst (Server.VerifyPassword serverKeypair req 5 2 3 4) = None /\
  snd (Server.VerifyPassword serverKeypair req 5 2 3 4) <> None /\
  (forall kp, unmarshalKeypair serverKeypair = Ok kp ->
     snd (Server.VerifyPassword serverKeypair req 5 2 3 4) =
     Some (errorsNew "Invalid password verify request")).
Proof.
  apply (VerifyPassword_rejects_malformed_NS serverKeypair
           (Some {| VerifyPasswordRequest.NS := [];
                    VerifyPasswordRequest.C0 := Marshal curveG |}) 5 2 3 4).
  right. eexists. split; [reflexivity|]. left. reflexivity.
Defined.

(** *** C6 *)

(** C6 at a concrete input: the proof of success of the response to the
    right password. *)
Lemma validateProofOfSuccess_iff_witness :
  let c := client [x02] in
  let proof := theProof [x02] pw in
  let c0b := VerifyPasswordRequest.C0 (theRequest [x02] pw) in
  let c1b := VerifyPasswordResponse.C1 (theResponse [x02] pw) in
  Parse.ProofOfSuccess (Some proof) = Ok (Toy.P4, Toy.P3, Toy.P5, 3) /\
  (let hs0 := hashToPoint dhs0 [ns] in
   let hs1 := hashToPoint dhs1 [ns] in
   let challenge :=
     hashZ proofOk [Client.serverPublicKeyBytes c; Marshal curveG; c0b; c1b;
                    ProofOfSuccess.Term1 proof; ProofOfSuccess.Term2 proof;
                    ProofOfSuccess.Term3 proof] in
   Client.validateProofOfSuccess c (Some proof) ns Toy.P1 Toy.P6 c0b c1b = true <->
   (Add Toy.P4 (ScalarMultInt Toy.P1 challenge) = ScalarMultInt hs0 3 /\
    Add Toy.P3 (ScalarMultInt Toy.P6 challenge) = ScalarMultInt hs1 3 /\
    Add Toy.P5 (ScalarMultInt (Client.serverPublicKey c) challenge) =
      ScalarMultInt curveG 3)).
Proof.
  intros c proof c0b c1b.
  assert (Parse.ProofOfSuccess (Some proof) = Ok (Toy.P4, Toy.P3, Toy.P5, 3))
    as Hparse by run.
  split; [exact Hparse|].
  exact (validateProofOfSuccess_iff (C:=curve) (Prim:=primitives) c proof ns
           Toy.P1 Toy.P6 c0b c1b Toy.P4 Toy.P3 Toy.P5 3 Hparse).
Defined.

(** *** C7 *)

(** C7 at two concrete inputs: the request made with the right password
    takes the first branch, the one made with the wrong password the second. *)
Lemma VerifyPassword_branches_witness :
  (exists vresp,
     Server.VerifyPassword serverKeypair (Some (theRequest [x02] pw)) 5 2 3 4 =
       (Some vresp, None) /\
     VerifyPasswordResponse.Res vresp = true /\
     VerifyPasswordResponse.ProofSuccess vresp <> None /\
     VerifyPasswordResponse.ProofFail vresp = None) /\
  (exists c1 pf,
     Server.VerifyPassword serverKeypair (Some (theRequest [x02] wrong_pw)) 5 2 3 4 =
       (Some {| VerifyPasswordResponse.Res := false;
                VerifyPasswordResponse.C1 := Marshal c1;
                VerifyPasswordResponse.ProofSuccess := None;
                VerifyPasswordResponse.ProofFail := Some pf |}, None)).
Proof.
  split.
  - eexists. split.
    + apply (proj1 (VerifyPassword_branches (C:=curve) (Prim:=primitives) serverKeypair
                      {| PublicKey := pub; PrivateKey := BigInt.Bytes 3 |}
                      Toy.P3 (theRequest [x02] pw) Toy.P1 5 2 3 4
                      ltac:(run) ltac:(run) ltac:(run) ltac:(run))).
      run.
    + repeat split. discriminate.
  - destruct (proj2 (VerifyPassword_branches (C:=curve) (Prim:=primitives) serverKeypair
                       {| PublicKey := pub; PrivateKey := BigInt.Bytes 3 |}
                       Toy.P3 (theRequest [x02] wrong_pw) Toy.P2 5 2 3 4
                       ltac:(run) ltac:(run) ltac:(run) ltac:(run)))
      as (c1 & pf & _ & H); [run|].
    exists c1, pf. exact H.
Defined.

(** *** C8 *)


(** *** C9 *)

(** C9 at two concrete inputs: the calls with a nil response return an error
    and no key. *)
Lemma client_returns_no_key_with_error_witness :
  (exists rec key err,
     Client.EnrollAccount (client [x02]) pw None (Ok nc) (Ok mBuf) =
       Returns (rec, key, err) /\ err <> None /\ key = None) /\
  (exists key err,
     Client.CheckResponseAndDecrypt (client [x02]) pw (record [x02]) None =
       Returns (key, err) /\ err <> None /\ key = None).
Proof.
  split.
  - exists None, None, (Some (errorsNew "invalid proof")).
    split; [reflexivity|]. split; [discriminate|].
    apply (proj1 client_returns_no_key_with_error (client [x02]) pw None
             (Ok nc) (Ok mBuf) None None (Some (errorsNew "invalid proof")));
      [reflexivity|discriminate].
  - exists None, (Some (errorsNew "invalid response")).
    split; [reflexivity|]. split; [discriminate|].
    apply (proj2 client_returns_no_key_with_error (client [x02]) pw
             (record [x02]) None None (Some (errorsNew "invalid response")));
      [reflexivity|discriminate].
Defined.

(** *** C10 *)

(** C10 at a concrete input: the client made from key 2 and rotated with the
    token of the draws 2, 3. *)
Lemma reachable_client_consistent_witness :
  cached_bytes_consistent (client' [x02] 2 3).
Proof.
  apply reachable_client_consistent.
  apply (reach_Rotate (client [x02]) _ (token 2 3) None).
  - apply (reach_NewClient [x02] pub). reflexivity.
  - reflexivity.
Defined.

(** ** Further concrete runs *)

Module MoreExamples.

(** A key-derivation stream whose first block is above the group order and
    whose later blocks are the scalar 1, and one that never comes below the
    order. *)
Definition stream_second_in_range (secret salt info : bytes) : nat -> bytes :=
  reader_out_of_range.

Definition stream_out_of_range (secret salt info : bytes) (i : nat) : bytes :=
  repeat xff 32.

(** A second rotation, with draws 2 and 1, of the keypair rotated with 2
    and 3. *)
Definition secondToken : UpdateToken.t :=
  {| UpdateToken.A := [x02]; UpdateToken.B := [x01] |}.

Definition serverKeypair'' : bytes :=
  match snd (fst (Server.Rotate (serverKeypair' 2 3) 2 1)) with
  | Some k => k
  | None => []
  end.

(** The enrolled record with a server nonce of 33 bytes, and the request the
    client makes from it. *)
Definition longRecord : EnrollmentRecord.t :=
  {| EnrollmentRecord.NS := repeat x01 33;
     EnrollmentRecord.NC := nc;
     EnrollmentRecord.T0 := EnrollmentRecord.T0 (theRecord [x02]);
     EnrollmentRecord.T1 := EnrollmentRecord.T1 (theRecord [x02]) |}.

Definition longRequest : VerifyPasswordRequest.t :=
  match fst (Client.CreateVerifyPasswordRequest (client [x02]) pw
               (Some longRecord)) with
  | Some r => r
  | None => {| VerifyPasswordRequest.NS := []; VerifyPasswordRequest.C0 := [] |}
  end.

(** The enrollment response of the server for the nonce [ns]. *)
Definition theEnrollment : option EnrollmentResponse.t :=
  fst (Server.GetEnrollment serverKeypair (Ok ns) 4).

(** The key returned by the enrollment. *)
Definition theKey : bytes :=
  match enrolledKey [x02] with
  | Some k => k
  | None => []
  end.

(** The token with scalars 1 and 0. *)
Definition unitToken : UpdateToken.t :=
  {| UpdateToken.A := [x01]; UpdateToken.B := [] |}.

End MoreExamples.
Import MoreExamples.

(** X1 at a concrete input: a stream whose second block is the first one in range. *)
Lemma HashZ_returns_first_in_range_witness :
  UtilsHash.HashZ stream_second_in_range 2 [] =
    Some (stream_second_in_range [] [] (list_byte_of_string "HashZ") 1%nat) /\
  Unnamed0Hash.HashZ stream_second_in_range 2 [] =
    Some (BigInt.SetBytes
            (stream_second_in_range [] [] (list_byte_of_string "HashZ") 1%nat)).
Proof.
  apply (HashZ_returns_first_in_range stream_second_in_range [] 1 2).
  - intros i Hi. assert (i = O) as -> by lia. vm_compute. discriminate.
  - vm_compute. reflexivity.
  - lia.
Defined.

(** X2 at a concrete input: the same stream and the block it returns. *)
Lemma HashZ_result_in_range_witness :
  0 <= BigInt.SetBytes (repeat x00 31 ++ [x01]) < P256_N /\
  exists k, (k < 2)%nat /\
    repeat x00 31 ++ [x01] =
      stream_second_in_range [] [] (list_byte_of_string "HashZ") k /\
    forall i, (i < k)%nat ->
      P256_N <= BigInt.SetBytes
                  (stream_second_in_range [] [] (list_byte_of_string "HashZ") i).
Proof.
  apply (HashZ_result_in_range stream_second_in_range [] (repeat x00 31 ++ [x01]) 2).
  vm_compute. reflexivity.
Defined.

(** X3 at a concrete input: a stream that stays above the order, with fuel 5. *)
Lemma HashZ_never_returns_out_of_range_witness :
  UtilsHash.HashZ stream_out_of_range 5 [] = None.
Proof.
  apply (HashZ_never_returns_out_of_range stream_out_of_range []).
  intros i. vm_compute. discriminate.
Defined.

(** X6 at a concrete input: the key returned for the right password. *)
Lemma key_requires_valid_proof_of_success_witness :
  exists rc r,
    record [x02] = Some rc /\ response [x02] pw = Some r /\
    VerifyPasswordResponse.Res r = true.
Proof.
  destruct (key_requires_valid_proof_of_success (C:=curve) (Prim:=primitives)
              (client [x02]) pw (record [x02]) (response [x02] pw) theKey None
              ltac:(run))
    as (rc & r & _ & _ & _ & _ & Hrec & Hresp & Hres & _).
  exists rc, r. auto.
Defined.

(** X7 at a concrete input: the enrollment of the examples. *)
Lemma EnrollAccount_record_shape_witness :
  exists r nc' mBuf',
    theEnrollment = Some r /\
    EnrollmentRecord.NS (theRecord [x02]) = EnrollmentResponse.NS r /\
    EnrollmentRecord.NC (theRecord [x02]) = nc' /\
    enrolledKey [x02] = Some (derivedKey (hashToPoint dm [mBuf'])).
Proof.
  destruct (EnrollAccount_record_shape (C:=curve) (Prim:=primitives)
              (client [x02]) pw theEnrollment (Ok nc) (Ok mBuf)
              (theRecord [x02]) (enrolledKey [x02]) None ltac:(run))
    as (r & c0 & c1 & nc' & mBuf' & Hr & _ & _ & _ & _ & _ & Hrec & Hkey & _).
  exists r, nc', mBuf'. rewrite Hrec. auto.
Defined.

(** X9 at a concrete input: the draws 2 and 0. *)
Lemma GenerateClientKey_accepted_witness :
  Client.NewClient (ClientKeys.GenerateClientKey 2) pub =
    (Some {| Client.clientPrivateKey := 2;
             Client.clientPrivateKeyBytes := BigInt.Bytes 2;
             Client.serverPublicKey := Toy.P3;
             Client.serverPublicKeyBytes := pub |}, None) /\
  Client.NewClient (ClientKeys.GenerateClientKey 0) pub =
    (None, Some (errorsNew "invalid private key")).
Proof.
  split.
  - apply (proj1 (GenerateClientKey_accepted (C:=curve)
                    2 pub Toy.P3 ltac:(run))). lia.
  - apply (proj2 (GenerateClientKey_accepted (C:=curve)
                    0 pub Toy.P3 ltac:(run))). reflexivity.
Defined.

(** X10 at a concrete input: the keypair of the draw 3 and the client key 2. *)
Lemma generated_public_key_accepted_witness :
  Server.GetPublicKey serverKeypair =
    (Some (Marshal (ScalarMultInt curveG 3)), None) /\
  List.length (Marshal (ScalarMultInt curveG 3)) = 65%nat /\
  Client.NewClient [x02] (Marshal (ScalarMultInt curveG 3)) =
    (Some {| Client.clientPrivateKey := BigInt.SetBytes [x02];
             Client.clientPrivateKeyBytes := [x02];
             Client.serverPublicKey := ScalarMultInt curveG 3;
             Client.serverPublicKeyBytes := Marshal (ScalarMultInt curveG 3) |},
     None).
Proof.
  apply (generated_public_key_accepted (C:=curve)
           3 serverKeypair [x02]); [run|run|discriminate].
Defined.

(** X11 at a concrete input: the client key 2 and the token of the draws 2, 3. *)
Lemma RotateClientKeys_agrees_with_Rotate_witness :
  ClientKeys.RotateClientKeys [x02] pub (Some (theToken 2 3)) =
    match Client.Rotate (client [x02]) (Some (theToken 2 3)) with
    | (c', None) =>
        (Some (Client.clientPrivateKeyBytes c'),
         Some (Client.serverPublicKeyBytes c'), None)
    | (_, Some e) => (None, None, Some e)
    end.
Proof.
  apply (RotateClientKeys_agrees_with_Rotate (C:=curve)
           [x02] pub (client [x02]) (Some (theToken 2 3))). run.
Defined.

(** X13 at a concrete input: the rotation with draws 2, 3. *)
Lemma rotation_keeps_public_key_agreement_witness :
  exists c',
    Client.Rotate (client [x02]) (Some (theToken 2 3)) = (c', None) /\
    Server.GetPublicKey (serverKeypair' 2 3) =
      (Some (Client.serverPublicKeyBytes c'), None) /\
    Client.serverPublicKey c' =
      ScalarMultInt curveG (gf.Add (gf.Mul 3 2) 3) /\
    Client.clientPrivateKey c' = gf.Mul (BigInt.SetBytes [x02]) 2.
Proof.
  apply (rotation_keeps_public_key_agreement (C:=curve)
           3 serverKeypair pub [x02] (client [x02]) 2 3 (theToken 2 3)
           (serverKeypair' 2 3)); run.
Defined.

(** X15 at a concrete input: the enrolled record and two tokens. *)
Lemma UpdateRecord_composes_witness :
  exists rc1,
    Client.UpdateRecord (Some (theRecord [x02])) (Some (theToken 2 3)) =
      (Some rc1, None) /\
    Client.UpdateRecord (Some rc1) (Some secondToken) =
    Client.UpdateRecord (Some (theRecord [x02]))
      (Some (composeTokens (theToken 2 3) secondToken)).
Proof.
  apply (UpdateRecord_composes (C:=curve)
           (theRecord [x02]) (theToken 2 3) secondToken Toy.P6 Toy.P6); run.
Defined.

(** X16 at a concrete input: the rotations with draws 2, 3 and 2, 1. *)
Lemma Server_Rotate_composes_witness :
  Server.Rotate serverKeypair (gf.Mul 2 2) (gf.Add (gf.Mul 3 2) 1) =
    (Some (composeTokens (theToken 2 3) secondToken), Some serverKeypair'', None).
Proof.
  apply (Server_Rotate_composes (C:=curve)
           serverKeypair (serverKeypair' 2 3) serverKeypair'' 2 3 2 1
           (theToken 2 3) secondToken); run.
Defined.

(** X18 at a concrete input: a record with a server nonce of 33 bytes. *)
Lemma long_NS_request_is_refused_witness :
  VerifyPasswordRequest.NS longRequest = EnrollmentRecord.NS longRecord /\
  Server.VerifyPassword serverKeypair (Some longRequest) 5 2 3 4 =
    (None, Some (errorsNew "Invalid password verify request")).
Proof.
  apply (long_NS_request_is_refused (C:=curve)
           (client [x02]) pw serverKeypair
           {| PublicKey := pub; PrivateKey := BigInt.Bytes 3 |}
           longRecord longRequest 5 2 3 4); run.
Defined.

(** X19 at a concrete input: the attempt with the wrong password. *)
Lemma server_accepts_iff_same_password_point_witness :
  VerifyPasswordResponse.Res (theResponse [x02] wrong_pw) = true <->
  hashToPoint dhc0 [EnrollmentRecord.NC (theRecord [x02]); wrong_pw] =
  hashToPoint dhc0 [EnrollmentRecord.NC (theRecord [x02]); pw].
Proof.
  apply (server_accepts_iff_same_password_point (C:=curve)
           3 serverKeypair pub [x02] (client [x02]) pw wrong_pw
           (theRecord [x02]) (theRequest [x02] wrong_pw)
           (theResponse [x02] wrong_pw) 5 2 3 4); run.
Defined.

(** X20 at a concrete input: the attempt with the wrong password. *)
Lemma wrong_password_gives_no_key_witness :
  exists req vresp,
    Client.CreateVerifyPasswordRequest (client [x02]) wrong_pw
      (Some (theRecord [x02])) = (Some req, None) /\
    Server.VerifyPassword serverKeypair (Some req) 5 2 3 4 = (Some vresp, None) /\
    VerifyPasswordResponse.Res vresp = false /\
    Client.CheckResponseAndDecrypt (client [x02]) wrong_pw
      (Some (theRecord [x02])) (Some vresp) = Returns (None, None).
Proof.
  apply (wrong_password_gives_no_key (C:=curve)
           3 serverKeypair pub [x02] (client [x02]) pw wrong_pw
           (theRecord [x02]) Toy.P6 5 2 3 4); run.
Defined.

(** X22 at a concrete input: the enrollment of the examples. *)
Lemma enrollment_response_accepted_witness :
  exists resp,
    Server.GetEnrollment serverKeypair (Ok ns) 4 = (Some resp, None) /\
    EnrollmentResponse.NS resp = ns /\
    PointUnmarshal (EnrollmentResponse.C0 resp) =
      Ok (ScalarMultInt (hashToPoint dhs0 [ns]) 3) /\
    PointUnmarshal (EnrollmentResponse.C1 resp) =
      Ok (ScalarMultInt (hashToPoint dhs1 [ns]) 3) /\
    Client.validateProofOfSuccess (client [x02])
      (EnrollmentResponse.Proof resp) ns
      (ScalarMultInt (hashToPoint dhs0 [ns]) 3)
      (ScalarMultInt (hashToPoint dhs1 [ns]) 3)
      (EnrollmentResponse.C0 resp) (EnrollmentResponse.C1 resp) = true.
Proof.
  apply (enrollment_response_accepted (C:=curve)
           3 serverKeypair pub [x02] (client [x02]) ns 4); run.
Defined.

(** X23 at a concrete input: the enrolled record and the token with scalars 1 and 0. *)
Lemma UpdateRecord_identity_witness :
  Client.UpdateRecord (Some (theRecord [x02])) (Some unitToken) =
    (Some (theRecord [x02]), None).
Proof.
  apply (UpdateRecord_identity (C:=curve)
           (theRecord [x02]) Toy.P6 Toy.P6 unitToken); run.
Defined.

